(** * FinPro Robo-Advisor: the recommendation service of [main.py]

    A shallow embedding of the FastAPI service in [main.py]: the module-level
    globals loaded at start-up ([MODEL_SVD], [df_assets], [ALL_ASSET_IDS]),
    the request and response models, the two rankers
    ([get_cold_start_recs], [get_warm_start_recs]) and the endpoint
    [recommend], followed by the properties the specification states about
    them.

    Conventions.
    - A Python [int] is a [Z]; a Python [str] is a [string].
    - An affinity estimate ([pred.est], a finite float) is a rational [Q];
      comparisons are [Qle]/[Qeq], so equal scores are [Qeq]-equal.
    - A Python exception is a constructor of [exn]; code that may raise
      returns a [result]. *)

From Stdlib Require Import String List ZArith QArith Bool Lia.
From Stdlib Require Import Permutation Sorted.
Import ListNotations.

Open Scope string_scope.
Open Scope Z_scope.

(** ** Exceptions and results *)

Inductive exn : Type :=
| ValidationError   (* pydantic: a required field is missing *)
| TypeError         (* [x in None] *)
| KeyError          (* a DataFrame column that does not exist *)
| AttributeError.   (* an attribute of [None] *)

Inductive result (A : Type) : Type :=
| Ok (a : A)
| Raise (e : exn).

Arguments Ok {A} a.
Arguments Raise {A} e.

Definition bind {A B} (r : result A) (k : A -> result B) : result B :=
  match r with
  | Ok a => k a
  | Raise e => Raise e
  end.

Notation "x <- r ;; k" := (bind r (fun x => k))
  (at level 61, r at next level, right associativity).

(** ** Python and pandas primitives used by [main.py] *)

Module Py.

(** [sub in s] on strings: [sub] occurs in [s] as a contiguous substring. *)
Fixpoint contains (sub s : string) : bool :=
  String.prefix sub s ||
  match s with
  | EmptyString => false
  | String _ s' => contains sub s'
  end.

(** [l[:k]]: the first [k] elements when [k >= 0]; all but the last [-k]
    elements when [k < 0]. [DataFrame.head(k)] selects rows the same
    way. *)
Definition slice_to {A} (k : Z) (l : list A) : list A :=
  if 0 <=? k then firstn (Z.to_nat k) l
  else firstn (length l - Z.to_nat (- k)) l.

(** [x in xs] on a list of strings, as [Series.isin] tests each cell. *)
Definition isin (xs : list string) (x : string) : bool :=
  existsb (String.eqb x) xs.

(** [Series.unique()]: the distinct values in order of first appearance. *)
Fixpoint unique_from (seen l : list string) : list string :=
  match l with
  | [] => []
  | x :: l' =>
      if isin seen x then unique_from seen l'
      else x :: unique_from (x :: seen) l'
  end.

Definition unique (l : list string) : list string := unique_from [] l.

(** [list.sort(key=..., reverse=True)] on (identifier, score) pairs with
    the score as key: descending by key, and stable, so that records with
    equal keys keep their original order. [insert_desc] puts [x], which
    comes first in the original order, in front of the first record whose
    key is not greater than its own. *)
Fixpoint insert_desc (x : string * Q) (l : list (string * Q))
  : list (string * Q) :=
  match l with
  | [] => [x]
  | y :: l' =>
      if Qle_bool (snd y) (snd x) then x :: y :: l'
      else y :: insert_desc x l'
  end.

Fixpoint sort_desc (l : list (string * Q)) : list (string * Q) :=
  match l with
  | [] => []
  | x :: l' => insert_desc x (sort_desc l')
  end.

End Py.

(** ** Global state, loaded once at start-up (main.py, lines 9-27) *)

(** The pickled SVD model, seen through the two methods the service calls.
    [to_inner_uid u] is [None] where [trainset.to_inner_uid] raises
    [ValueError]; [predict_est u a] is [predict(u, a).est]. *)
Record Model : Type := {
  to_inner_uid : string -> option nat;
  predict_est : string -> string -> Q
}.

(** A row of [asset_information.csv], with the two columns the service
    reads. *)
Record Asset : Type := {
  ISIN : string;
  assetCategory : string
}.

(** [df_assets]: the frame read from the file, or the frame [pd.DataFrame()]
    with no rows and no columns that replaces it when loading fails. *)
Inductive DataFrame : Type :=
| EmptyFrame
| AssetFrame (rows : list Asset).

Record Globals : Type := {
  MODEL_SVD : option Model;
  df_assets : DataFrame;
  ALL_ASSET_IDS : list string
}.

(** Start-up. [model_file] is [None] when [model_svd.pkl] is not found;
    [asset_file] is [None] when reading the catalog raises. *)
Definition startup (model_file : option Model)
                   (asset_file : option (list Asset)) : Globals :=
  {| MODEL_SVD := model_file;
     df_assets :=
       match asset_file with
       | Some rows => AssetFrame rows
       | None => EmptyFrame
       end;
     ALL_ASSET_IDS :=
       match asset_file with
       | Some rows => Py.unique (map ISIN rows)
       | None => []
       end |}.

(** ** Data models (main.py, lines 29-38) *)

Record RecommendationRequest : Type := {
  user_id : string;
  risk_profile : option string;
  top_k : Z
}.

Record RecommendationResponse : Type := {
  resp_user_id : string;
  source : string;
  recommendations : list string
}.

(** The JSON body of a request, field by field: [None] is a field left out;
    [raw_risk_profile = Some None] is an explicit [null]. *)
Record RawRequest : Type := {
  raw_user_id : option string;
  raw_risk_profile : option (option string);
  raw_top_k : option Z
}.

(** Validation by the [RecommendationRequest] model: [user_id] is required,
    [risk_profile] defaults to ["Balanced"], [top_k] defaults to [5]. The
    fields carry no other constraint. *)
Definition parse_request (raw : RawRequest) : result RecommendationRequest :=
  match raw_user_id raw with
  | None => Raise ValidationError
  | Some u =>
      Ok {| user_id := u;
            risk_profile :=
              match raw_risk_profile raw with
              | Some rp => rp
              | None => Some "Balanced"
              end;
            top_k :=
              match raw_top_k raw with
              | Some k => k
              | None => 5
              end |}
  end.

(** ** Helper functions (main.py, lines 40-61) *)

Section Service.

Variable G : Globals.

(** The category list chosen from the risk profile (lines 43-48). *)
Definition target_cats (risk_profile : string) : list string :=
  if Py.contains "Conservative" risk_profile then ["Bond"]
  else if Py.contains "Aggressive" risk_profile then ["Stock"]
  else ["Stock"; "MTF"].

(** Fallback logic for new users. *)
Definition get_cold_start_recs (risk_profile : option string) (top_k : Z)
  : result (list string) :=
  match risk_profile with
  | None => Raise TypeError
  | Some rp =>
      let cats := target_cats rp in
      match df_assets G with
      | EmptyFrame => Raise KeyError
      | AssetFrame rows =>
          let candidates :=
            filter (fun a => Py.isin cats (assetCategory a)) rows in
          Ok (map ISIN (Py.slice_to top_k candidates))
      end
  end.

(** The scoring loop of [get_warm_start_recs] (lines 55-58). *)
Fixpoint score_all (user_id : string) (ids : list string)
  : result (list (string * Q)) :=
  match ids with
  | [] => Ok []
  | asset_id :: ids' =>
      match MODEL_SVD G with
      | None => Raise AttributeError
      | Some m =>
          rest <- score_all user_id ids' ;;
          Ok ((asset_id, predict_est m user_id asset_id) :: rest)
      end
  end.

(** SVD logic for existing users. *)
Definition get_warm_start_recs (user_id : string) (top_k : Z)
  : result (list string) :=
  predictions <- score_all user_id (ALL_ASSET_IDS G) ;;
  Ok (map fst (Py.slice_to top_k (Py.sort_desc predictions))).

(** ** API endpoint (main.py, lines 64-85) *)

(** Lines 66-72: the model is loaded and knows the user. *)
Definition use_ai (user_id : string) : bool :=
  match MODEL_SVD G with
  | None => false
  | Some m =>
      match to_inner_uid m user_id with
      | Some _ => true
      | None => false
      end
  end.

Definition recommend (request : RecommendationRequest)
  : result RecommendationResponse :=
  if use_ai (user_id request) then
    recs <- get_warm_start_recs (user_id request) (top_k request) ;;
    Ok {| resp_user_id := user_id request;
          source := "AI Model (SVD)";
          recommendations := recs |}
  else
    recs <- get_cold_start_recs (risk_profile request) (top_k request) ;;
    Ok {| resp_user_id := user_id request;
          source :=
            "Rule-Based (" ++
            match risk_profile request with
            | Some rp => rp
            | None => "None"
            end ++ ")";
          recommendations := recs |}.

(** The endpoint as FastAPI runs it: validate the body, then call the
    handler. *)
Definition post_recommend (raw : RawRequest)
  : result RecommendationResponse :=
  request <- parse_request raw ;;
  recommend request.

End Service.

(** ** Auxiliary notions for the statements *)

(** [before a b l]: some occurrence of [a] in [l] comes strictly before some
    occurrence of [b]. *)
Inductive before {A : Type} (a b : A) : list A -> Prop :=
| before_here l : In b l -> before a b (a :: l)
| before_later x l : before a b l -> before a b (x :: l).

(** [by_score_desc p q]: the score of [p] is at least the score of [q]. *)
Definition by_score_desc (p q : string * Q) : Prop := (snd q <= snd p)%Q.

(** The pair appended to [predictions] for one asset. *)
Definition scored (m : Model) (u a : string) : string * Q :=
  (a, predict_est m u a).

(** The full ranking of the warm path, before truncation. *)
Definition ranking (m : Model) (u : string) (ids : list string)
  : list string :=
  map fst (Py.sort_desc (map (scored m u) ids)).

(** ** Sample data for the concrete checks *)

Definition catalog3 : list Asset :=
  [ {| ISIN := "A1"; assetCategory := "Bond" |};
    {| ISIN := "A2"; assetCategory := "Stock" |};
    {| ISIN := "A3"; assetCategory := "Bond" |} ].

(** A model that knows the user ["u1"] and scores A1, A2, A3 with 0.9, 0.5
    and 0.7. *)
Definition model3 : Model :=
  {| to_inner_uid := fun u => if String.eqb u "u1" then Some 0%nat else None;
     predict_est := fun _ a =>
       if String.eqb a "A1" then (9 # 10)%Q
       else if String.eqb a "A2" then 5 # 10
       else if String.eqb a "A3" then 7 # 10
       else 0%Q |}.

Definition catalog4 : list Asset :=
  [ {| ISIN := "A1"; assetCategory := "Bond" |};
    {| ISIN := "A2"; assetCategory := "Stock" |};
    {| ISIN := "A3"; assetCategory := "Bond" |};
    {| ISIN := "A4"; assetCategory := "MTF" |} ].

Definition stocks3 : list Asset :=
  [ {| ISIN := "S1"; assetCategory := "Stock" |};
    {| ISIN := "S2"; assetCategory := "Stock" |};
    {| ISIN := "S3"; assetCategory := "Stock" |} ].

(** A model that knows ["u1"] and gives every asset the same score. *)
Definition model_ties : Model :=
  {| to_inner_uid := fun u => if String.eqb u "u1" then Some 0%nat else None;
     predict_est := fun _ _ => (7 # 2)%Q |}.

(** The category table as the specification words it: the profile is
    compared with the three names of the enumeration, and every other value
    is treated as Balanced. *)
Definition spec_eligible_categories (risk_profile : string) : list string :=
  if String.eqb risk_profile "Conservative" then ["Bond"]
  else if String.eqb risk_profile "Aggressive" then ["Stock"]
  else ["Stock"; "MTF"].

(** The part of an outcome a caller sees besides the echoed user id. *)
Definition result_map {A B} (f : A -> B) (r : result A) : result B :=
  match r with
  | Ok a => Ok (f a)
  | Raise e => Raise e
  end.

(** ** The HTTP boundary and the two Streamlit clients *)

Module Json.

#[warnings="-register-all"]
Inductive value : Type :=
| Null
| Str (s : string)
| Int (z : Z)
| List (l : list value)
| Obj (fields : list (string * value)).

(** [d.get(key)] on the fields of an object. *)
Fixpoint get (fields : list (string * value)) (key : string)
  : option value :=
  match fields with
  | [] => None
  | (k, v) :: fields' => if String.eqb k key then Some v else get fields' key
  end.

End Json.

(** FastAPI binds the JSON body to [RecommendationRequest]: each declared
    field is read under its own name and keys that name no field are
    ignored. A value of the declared type is taken as it is, and [null] is
    taken for [risk_profile]. Values of another type, which pydantic
    converts or rejects case by case, occur in no body the clients below
    send; here they are rejected. *)
Definition raw_of_body (body : list (string * Json.value))
  : result RawRequest :=
  u <- match Json.get body "user_id" with
       | None => Ok None
       | Some (Json.Str s) => Ok (Some s)
       | Some _ => Raise ValidationError
       end ;;
  rp <- match Json.get body "risk_profile" with
        | None => Ok None
        | Some Json.Null => Ok (Some None)
        | Some (Json.Str s) => Ok (Some (Some s))
        | Some _ => Raise ValidationError
        end ;;
  k <- match Json.get body "top_k" with
       | None => Ok None
       | Some (Json.Int z) => Ok (Some z)
       | Some _ => Raise ValidationError
       end ;;
  Ok {| raw_user_id := u; raw_risk_profile := rp; raw_top_k := k |}.

(** The dictionary [recommend] returns (main.py, lines 81-85), as the JSON
    object sent back. *)
Definition response_json (resp : RecommendationResponse) : Json.value :=
  Json.Obj [ ("user_id", Json.Str (resp_user_id resp));
             ("source", Json.Str (source resp));
             ("recommendations",
              Json.List (map Json.Str (recommendations resp))) ].

(** What a client gets back: no reply at all, or a status and a body. *)
Inductive http_reply : Type :=
| NoReply
| Reply (status : Z) (body : Json.value).

(** POST /recommend: status 200 with the response object, 422 when the body
    fails validation, 500 when the handler raises. The bodies of the error
    replies are not modelled. *)
Definition serve_http (G : Globals) (body : list (string * Json.value))
  : http_reply :=
  match (raw <- raw_of_body body ;; post_recommend G raw) with
  | Ok resp => Reply 200 (response_json resp)
  | Raise ValidationError => Reply 422 Json.Null
  | Raise _ => Reply 500 Json.Null
  end.

(** [Response.raise_for_status()] raises for the client and server error
    statuses. *)
Definition raises_for_status (status : Z) : bool :=
  (400 <=? status) && (status <? 600).

(** What the user of a client sees after pressing the button, up to the
    point where the identifiers received are listed. *)
Inductive outcome : Type :=
| ApiError (status : Z)       (* streamlit_app.py: "API error <status>: ..." *)
| CallFailed                  (* "Failed to call API" / "API call failed" *)
| NoRecommendations           (* the warning "No recommendations returned" *)
| Crashed                     (* an exception no handler catches *)
| GotRecommendations          (* "Got <n> recommendations", then the list *)
    (source : option Json.value) (rec_ids : list Json.value).

(** app.py, lines 37-57: the count goes out under the key "k", and the
    reply is expected to be a JSON list of identifiers. *)
Module App.

Definition payload (user_id risk_profile : string) (k : Z)
  : list (string * Json.value) :=
  [ ("user_id", Json.Str user_id);
    ("risk_profile", Json.Str risk_profile);
    ("k", Json.Int k) ].

Definition on_reply (reply : http_reply) : outcome :=
  match reply with
  | NoReply => CallFailed
  | Reply status rec_ids =>
      if raises_for_status status then CallFailed
      else
        match rec_ids with
        | Json.List (x :: l) => GotRecommendations None (x :: l)
        | _ => NoRecommendations
        end
  end.

End App.

(** streamlit_app.py, lines 107-137: the count goes out under the key
    "top_k", and the reply is read as an object with the fields
    "recommendations" and "source". *)
Module StreamlitApp.

Definition payload (user_id risk_profile : string) (top_k : Z)
  : list (string * Json.value) :=
  [ ("user_id", Json.Str user_id);
    ("risk_profile", Json.Str risk_profile);
    ("top_k", Json.Int top_k) ].

Definition on_reply (reply : http_reply) : outcome :=
  match reply with
  | NoReply => CallFailed
  | Reply status data =>
      if raises_for_status status then ApiError status
      else
        match data with
        | Json.Obj fields =>
            let rec_ids :=
              match Json.get fields "recommendations" with
              | Some v => v
              | None => Json.List []
              end in
            let source :=
              match Json.get fields "source" with
              | Some v => v
              | None => Json.Str "Unknown"
              end in
            match rec_ids with
            | Json.List (x :: l) => GotRecommendations (Some source) (x :: l)
            | _ => NoRecommendations
            end
        | _ => Crashed
        end
  end.

End StreamlitApp.

(** ** The scenarios of the specification, run on the embedding *)

Example scenario_conservative :
  get_cold_start_recs (startup None (Some catalog3)) (Some "Conservative") 5
  = Ok ["A1"; "A3"].
Proof. reflexivity. Qed.

Example scenario_aggressive :
  get_cold_start_recs (startup None (Some catalog3)) (Some "Aggressive") 1
  = Ok ["A2"].
Proof. reflexivity. Qed.

Example scenario_moderate :
  get_cold_start_recs (startup None (Some catalog3)) (Some "Moderate") 2
  = get_cold_start_recs (startup None (Some catalog3)) (Some "Balanced") 2.
Proof. reflexivity. Qed.

Example scenario_known_user :
  recommend (startup (Some model3) (Some catalog3))
    {| user_id := "u1"; risk_profile := Some "Balanced"; top_k := 2 |}
  = Ok {| resp_user_id := "u1"; source := "AI Model (SVD)";
          recommendations := ["A1"; "A3"] |}.
Proof. reflexivity. Qed.

Example scenario_unknown_user :
  recommend (startup (Some model3) (Some catalog3))
    {| user_id := "u2"; risk_profile := Some "Conservative"; top_k := 2 |}
  = Ok {| resp_user_id := "u2"; source := "Rule-Based (Conservative)";
          recommendations := ["A1"; "A3"] |}.
Proof. reflexivity. Qed.

(** ** Lists: prefixes and relative order *)

Section ListFacts.

Context {A : Type}.

Lemma before_nth (a b : A) l :
  before a b l <->
  exists i j, (i < j)%nat /\ nth_error l i = Some a /\ nth_error l j = Some b.
Proof.
  split.
  - induction 1 as [l Hb | x l _ (i & j & Hij & Hi & Hj)].
    + apply In_nth_error in Hb as [j Hj].
      exists 0%nat, (S j). repeat split; [lia | assumption].
    + exists (S i), (S j). repeat split; [lia | assumption | assumption].
  - intros (i & j & Hij & Hi & Hj). revert i j Hij Hi Hj.
    induction l as [|x l IH]; intros i j Hij Hi Hj.
    + destruct i; discriminate.
    + destruct j as [|j]; [lia|]. destruct i as [|i]; simpl in *.
      * injection Hi as ->. apply before_here.
        eapply nth_error_In; eassumption.
      * apply before_later. apply (IH i j); [lia | assumption | assumption].
Qed.

Lemma before_In (a b : A) l : before a b l -> In a l /\ In b l.
Proof.
  induction 1 as [l Hb | x l _ [Ha Hb]]; simpl; auto.
Qed.

Lemma before_app_l (a b : A) l1 l2 : before a b l1 -> before a b (l1 ++ l2).
Proof.
  induction 1 as [l Hb | x l _ IH]; simpl.
  - apply before_here. apply in_or_app. now left.
  - now apply before_later.
Qed.

Lemma In_firstn (a : A) n l : In a (firstn n l) -> In a l.
Proof.
  intros H. rewrite <- (firstn_skipn n l). apply in_or_app. now left.
Qed.

Lemma before_firstn (a b : A) n l : before a b (firstn n l) -> before a b l.
Proof.
  intros H. rewrite <- (firstn_skipn n l). now apply before_app_l.
Qed.

Lemma StronglySorted_before (R : A -> A -> Prop) l (a b : A) :
  StronglySorted R l -> before a b l -> R a b.
Proof.
  intros Hs Hb. induction Hb as [l Hin | x l _ IH].
  - apply StronglySorted_inv in Hs as [_ Hall].
    rewrite Forall_forall in Hall. now apply Hall.
  - apply StronglySorted_inv in Hs as [Hs _]. now apply IH.
Qed.

Lemma StronglySorted_firstn (R : A -> A -> Prop) n l :
  StronglySorted R l -> StronglySorted R (firstn n l).
Proof.
  intros Hs. revert n.
  induction Hs as [|x l Hs IH Hall]; intros [|n]; simpl; try constructor.
  - apply IH.
  - rewrite Forall_forall in *. intros y Hy. apply Hall.
    eapply In_firstn. eassumption.
Qed.

Lemma NoDup_firstn n (l : list A) : NoDup l -> NoDup (firstn n l).
Proof.
  intros Hn. revert n.
  induction Hn as [|x l Hx Hn IH]; intros [|n]; simpl; try constructor.
  - intros Hin. apply Hx. eapply In_firstn. eassumption.
  - apply IH.
Qed.

End ListFacts.

Lemma before_map {A B} (f : A -> B) (a b : A) l :
  before a b l -> before (f a) (f b) (map f l).
Proof.
  induction 1 as [l Hb | x l _ IH]; simpl.
  - apply before_here. now apply in_map.
  - now apply before_later.
Qed.

Lemma before_map_inv {A B} (f : A -> B) (x y : B) l :
  before x y (map f l) ->
  exists a b, f a = x /\ f b = y /\ before a b l.
Proof.
  induction l as [|c l IH]; simpl; intros H; inversion H; subst.
  - match goal with Hin : In _ (map _ _) |- _ =>
      apply in_map_iff in Hin as (b & Hb & Hin) end.
    exists c, b. repeat split; [assumption | now apply before_here].
  - match goal with Hb : before _ _ (map _ _) |- _ =>
      destruct (IH Hb) as (a & b & Ha & Hb' & Hab) end.
    exists a, b. repeat split; [assumption | assumption | now apply before_later].
Qed.

(** ** Facts about the Python primitives *)

Lemma slice_to_nonneg {A} (k : Z) (l : list A) :
  0 <= k -> Py.slice_to k l = firstn (Z.to_nat k) l.
Proof.
  intros Hk. unfold Py.slice_to.
  destruct (Z.leb_spec 0 k); [reflexivity | lia].
Qed.

(** Whatever the sign of [k], [l[:k]] is a prefix of [l]. *)
Lemma slice_to_prefix {A} (k : Z) (l : list A) :
  exists n, Py.slice_to k l = firstn n l.
Proof.
  unfold Py.slice_to. destruct (0 <=? k); eexists; reflexivity.
Qed.

Lemma slice_to_length {A} (k : Z) (l : list A) :
  0 <= k -> Z.of_nat (length (Py.slice_to k l)) <= k.
Proof.
  intros Hk. rewrite slice_to_nonneg by assumption.
  rewrite length_firstn. lia.
Qed.

Lemma slice_to_all {A} (k : Z) (l : list A) :
  Z.of_nat (length l) <= k -> Py.slice_to k l = l.
Proof.
  intros Hk. rewrite slice_to_nonneg by lia.
  apply firstn_all2. lia.
Qed.

Lemma isin_In xs x : Py.isin xs x = true <-> In x xs.
Proof.
  unfold Py.isin. rewrite existsb_exists. split.
  - intros (y & Hy & Heq). apply String.eqb_eq in Heq. now subst.
  - intros Hx. exists x. split; [assumption | apply String.eqb_refl].
Qed.

Lemma unique_from_In seen l x :
  In x (Py.unique_from seen l) <-> In x l /\ ~ In x seen.
Proof.
  revert seen. induction l as [|y l IH]; intros seen; simpl.
  - tauto.
  - destruct (Py.isin seen y) eqn:E.
    + apply isin_In in E. rewrite IH. split.
      * tauto.
      * intros [[-> | Hx] Hn]; [contradiction | tauto].
    + assert (~ In y seen) as Hy.
      { intros H. apply isin_In in H. congruence. }
      simpl. rewrite IH. simpl. split.
      * intros [-> | [Hx Hn]]; [tauto | split; [tauto | ]].
        intros H. apply Hn. now right.
      * intros [[-> | Hx] Hn]; [now left | ].
        destruct (string_dec y x) as [-> | Hne]; [now left | right].
        split; [assumption | ]. intros [-> | H]; tauto.
Qed.

Lemma unique_from_NoDup seen l : NoDup (Py.unique_from seen l).
Proof.
  revert seen. induction l as [|y l IH]; intros seen; simpl.
  - constructor.
  - destruct (Py.isin seen y); [apply IH | ].
    constructor; [ | apply IH].
    rewrite unique_from_In. simpl. tauto.
Qed.

Lemma unique_NoDup l : NoDup (Py.unique l).
Proof. apply unique_from_NoDup. Qed.

Lemma unique_In l x : In x (Py.unique l) <-> In x l.
Proof. unfold Py.unique. rewrite unique_from_In. simpl. tauto. Qed.

(** A list without repetition is its own [unique()]. *)
Lemma unique_from_id seen l :
  NoDup l -> (forall x, In x l -> ~ In x seen) ->
  Py.unique_from seen l = l.
Proof.
  intros Hn. revert seen. induction Hn as [|y l Hy Hn IH]; intros seen Hs.
  - reflexivity.
  - simpl. destruct (Py.isin seen y) eqn:E.
    + apply isin_In in E. exfalso. apply (Hs y); simpl; auto.
    + f_equal. apply IH. intros x Hx [-> | Hin]; [contradiction | ].
      apply (Hs x); simpl; auto.
Qed.

Lemma unique_id l : NoDup l -> Py.unique l = l.
Proof. intros Hn. apply unique_from_id; [assumption | auto]. Qed.

(** *** The sort: a permutation, descending, stable *)

Lemma insert_desc_perm x l : Permutation (Py.insert_desc x l) (x :: l).
Proof.
  induction l as [|y l IH]; simpl.
  - reflexivity.
  - destruct (Qle_bool (snd y) (snd x)).
    + reflexivity.
    + rewrite IH. apply perm_swap.
Qed.

Lemma sort_desc_perm l : Permutation (Py.sort_desc l) l.
Proof.
  induction l as [|x l IH]; simpl.
  - reflexivity.
  - rewrite insert_desc_perm. now apply perm_skip.
Qed.

Lemma insert_desc_sorted x l :
  StronglySorted by_score_desc l ->
  StronglySorted by_score_desc (Py.insert_desc x l).
Proof.
  induction 1 as [|y l Hs IH Hall]; simpl.
  - repeat constructor.
  - destruct (Qle_bool (snd y) (snd x)) eqn:E.
    + apply Qle_bool_iff in E.
      constructor; [now constructor | ].
      constructor; [exact E | ].
      rewrite Forall_forall in *. intros z Hz.
      unfold by_score_desc in *. eapply Qle_trans; [apply Hall, Hz | exact E].
    + assert (snd x < snd y)%Q as Hlt.
      { apply Qnot_le_lt. intros H. apply Qle_bool_iff in H. congruence. }
      constructor; [exact IH | ].
      rewrite Forall_forall in *. intros z Hz.
      apply (Permutation_in _ (insert_desc_perm x l)) in Hz.
      destruct Hz as [<- | Hz]; [ | now apply Hall].
      unfold by_score_desc. now apply Qlt_le_weak.
Qed.

Lemma sort_desc_sorted l : StronglySorted by_score_desc (Py.sort_desc l).
Proof.
  induction l as [|x l IH]; simpl.
  - constructor.
  - now apply insert_desc_sorted.
Qed.

(** Where inserting [x] creates a new "before" pair, either [x] is the
    first of the pair, or [x] went behind a strictly greater score. *)
Lemma before_insert_desc p q x l :
  before p q (Py.insert_desc x l) ->
  before p q l \/ (p = x /\ In q l) \/ (q = x /\ (snd x < snd p)%Q).
Proof.
  induction l as [|y l IH]; simpl; intros H.
  - inversion H; subst.
    + match goal with Hin : In _ [] |- _ => destruct Hin end.
    + match goal with Hb : before _ _ [] |- _ => inversion Hb end.
  - destruct (Qle_bool (snd y) (snd x)) eqn:E.
    + inversion H; subst; auto.
    + assert (snd x < snd y)%Q as Hlt.
      { apply Qnot_le_lt. intros Hle. apply Qle_bool_iff in Hle. congruence. }
      inversion H as [l0 Hin | z l0 Hb]; subst.
      * apply (Permutation_in _ (insert_desc_perm x l)) in Hin.
        destruct Hin as [<- | Hin]; [now right; right | ].
        left. now apply before_here.
      * destruct (IH Hb) as [Hl | [[-> Hin] | [-> Hp]]].
        -- left. now apply before_later.
        -- right; left. split; [reflexivity | now right].
        -- now right; right.
Qed.

(** Stability: two records with equal scores come out in the order they
    went in. *)
Lemma sort_desc_stable p q l :
  before p q (Py.sort_desc l) -> (snd p == snd q)%Q -> before p q l.
Proof.
  intros H Heq. revert H. induction l as [|x l IH]; simpl; intros H.
  - inversion H.
  - apply before_insert_desc in H as [H | [[-> Hin] | [-> Hlt]]].
    + apply before_later. now apply IH.
    + apply before_here.
      now apply (Permutation_in _ (sort_desc_perm l)).
    + exfalso. rewrite Heq in Hlt. now apply Qlt_irrefl in Hlt.
Qed.

Lemma slice_to_map {A B} (f : A -> B) (k : Z) (l : list A) :
  Py.slice_to k (map f l) = map f (Py.slice_to k l).
Proof.
  unfold Py.slice_to. rewrite length_map.
  destruct (0 <=? k); apply firstn_map.
Qed.

Lemma StronglySorted_map_In {A B} (R : A -> A -> Prop) (R' : B -> B -> Prop)
      (f : A -> B) l :
  (forall x y, In x l -> In y l -> R x y -> R' (f x) (f y)) ->
  StronglySorted R l -> StronglySorted R' (map f l).
Proof.
  intros Hf Hs. induction Hs as [|x l Hs IH Hall]; simpl; constructor.
  - apply IH. intros y z Hy Hz. apply Hf; now right.
  - rewrite Forall_forall in *. intros y Hy.
    apply in_map_iff in Hy as (z & <- & Hz).
    apply Hf; [now left | now right | now apply Hall].
Qed.

(** ** Facts about the rankers and the endpoint *)

Lemma map_fst_scored m u ids : map fst (map (scored m u) ids) = ids.
Proof.
  rewrite map_map. simpl. apply map_id.
Qed.

Lemma score_all_ok G m u ids :
  MODEL_SVD G = Some m -> score_all G u ids = Ok (map (scored m u) ids).
Proof.
  intros Hm. induction ids as [|a ids IH]; simpl.
  - reflexivity.
  - rewrite Hm, IH. reflexivity.
Qed.

Lemma get_warm_start_recs_ok G m u k :
  MODEL_SVD G = Some m ->
  get_warm_start_recs G u k
  = Ok (Py.slice_to k (ranking m u (ALL_ASSET_IDS G))).
Proof.
  intros Hm. unfold get_warm_start_recs, ranking.
  rewrite (score_all_ok G m) by assumption. simpl.
  now rewrite slice_to_map.
Qed.

Lemma ranking_perm m u ids : Permutation (ranking m u ids) ids.
Proof.
  unfold ranking. rewrite sort_desc_perm. now rewrite map_fst_scored.
Qed.

Lemma In_sorted_scored m u ids p :
  In p (Py.sort_desc (map (scored m u) ids)) -> p = scored m u (fst p).
Proof.
  intros Hp. apply (Permutation_in _ (sort_desc_perm _)) in Hp.
  apply in_map_iff in Hp as (a & <- & _). reflexivity.
Qed.

Lemma ranking_sorted m u ids :
  StronglySorted (fun a b => (predict_est m u b <= predict_est m u a)%Q)
                 (ranking m u ids).
Proof.
  unfold ranking.
  apply StronglySorted_map_In with (R := by_score_desc);
    [ | apply sort_desc_sorted].
  intros p q Hp Hq Hpq.
  rewrite (In_sorted_scored _ _ _ _ Hp), (In_sorted_scored _ _ _ _ Hq) in Hpq.
  exact Hpq.
Qed.

Lemma ranking_stable m u ids a b :
  before a b (ranking m u ids) ->
  (predict_est m u a == predict_est m u b)%Q ->
  before a b ids.
Proof.
  unfold ranking. intros Hb Heq.
  apply before_map_inv in Hb as (p & q & <- & <- & Hb).
  destruct (before_In _ _ _ Hb) as [Hp Hq].
  rewrite <- (map_fst_scored m u ids).
  apply before_map. apply sort_desc_stable; [assumption | ].
  rewrite (In_sorted_scored _ _ _ _ Hp), (In_sorted_scored _ _ _ _ Hq).
  exact Heq.
Qed.

Lemma use_ai_true G u :
  use_ai G u = true <->
  exists m i, MODEL_SVD G = Some m /\ to_inner_uid m u = Some i.
Proof.
  unfold use_ai. split.
  - destruct (MODEL_SVD G) as [m|]; [ | discriminate].
    destruct (to_inner_uid m u) as [i|] eqn:Hi; [ | discriminate].
    intros _. now exists m, i.
  - intros (m & i & -> & ->). reflexivity.
Qed.

Lemma use_ai_no_model G u : MODEL_SVD G = None -> use_ai G u = false.
Proof. unfold use_ai. now intros ->. Qed.

(** The warm branch of [recommend] always answers. *)
Lemma recommend_warm G request :
  use_ai G (user_id request) = true ->
  exists m,
    MODEL_SVD G = Some m /\
    recommend G request
    = Ok {| resp_user_id := user_id request;
            source := "AI Model (SVD)";
            recommendations :=
              Py.slice_to (top_k request)
                (ranking m (user_id request) (ALL_ASSET_IDS G)) |}.
Proof.
  intros Hai. unfold recommend. rewrite Hai.
  apply use_ai_true in Hai as (m & i & Hm & _).
  exists m. split; [assumption | ].
  now rewrite (get_warm_start_recs_ok G m).
Qed.

(** The cold branch answers when the risk profile is a string and the
    catalog frame was loaded. *)
Lemma recommend_cold G request rp rows :
  use_ai G (user_id request) = false ->
  risk_profile request = Some rp ->
  df_assets G = AssetFrame rows ->
  recommend G request
  = Ok {| resp_user_id := user_id request;
          source := "Rule-Based (" ++ rp ++ ")";
          recommendations :=
            map ISIN
              (Py.slice_to (top_k request)
                 (filter (fun a => Py.isin (target_cats rp) (assetCategory a))
                         rows)) |}.
Proof.
  intros Hai Hrp Hdf. unfold recommend, get_cold_start_recs.
  rewrite Hai, Hrp, Hdf. reflexivity.
Qed.

(** Every answer of [recommend] comes from one of the two branches above. *)
Lemma recommend_Ok_inv G request resp :
  recommend G request = Ok resp ->
  (exists m,
      use_ai G (user_id request) = true /\ MODEL_SVD G = Some m /\
      source resp = "AI Model (SVD)" /\
      recommendations resp
      = Py.slice_to (top_k request)
          (ranking m (user_id request) (ALL_ASSET_IDS G)))
  \/
  (exists rp rows,
      use_ai G (user_id request) = false /\
      risk_profile request = Some rp /\ df_assets G = AssetFrame rows /\
      source resp = "Rule-Based (" ++ rp ++ ")" /\
      recommendations resp
      = map ISIN
          (Py.slice_to (top_k request)
             (filter (fun a => Py.isin (target_cats rp) (assetCategory a))
                     rows))).
Proof.
  intros H. destruct (use_ai G (user_id request)) eqn:Hai.
  - left. destruct (recommend_warm G request Hai) as (m & Hm & Heq).
    rewrite Heq in H. injection H as <-. exists m. auto.
  - right. unfold recommend in H. rewrite Hai in H.
    unfold get_cold_start_recs in H.
    destruct (risk_profile request) as [rp|] eqn:Hrp; [ | discriminate].
    destruct (df_assets G) as [|rows] eqn:Hdf; [discriminate | ].
    simpl in H. injection H as <-. exists rp, rows. auto.
Qed.

(** [recommend] raises nothing but the [TypeError] and the [KeyError] of the
    cold branch. *)
Lemma recommend_Raise_inv G request e :
  recommend G request = Raise e ->
  use_ai G (user_id request) = false /\
  ((e = TypeError /\ risk_profile request = None) \/
   (e = KeyError /\ df_assets G = EmptyFrame)).
Proof.
  intros H. destruct (use_ai G (user_id request)) eqn:Hai.
  - destruct (recommend_warm G request Hai) as (m & _ & Heq). congruence.
  - split; [reflexivity | ]. unfold recommend in H. rewrite Hai in H.
    unfold get_cold_start_recs in H.
    destruct (risk_profile request) as [rp|].
    + destruct (df_assets G) as [|rows]; simpl in H; [ | discriminate].
      injection H as <-. now right.
    + simpl in H. injection H as <-. now left.
Qed.

(** The dispatch of [recommend]: a loaded model that knows the user gives the
    warm ranker's list under an "AI Model" label; otherwise the cold ranker
    runs, and where it answers its list goes out under a "Rule-Based"
    label. *)
Lemma recommend_dispatch G request :
  (use_ai G (user_id request) = true ->
   exists resp,
     recommend G request = Ok resp /\
     String.prefix "AI Model" (source resp) = true /\
     get_warm_start_recs G (user_id request) (top_k request)
     = Ok (recommendations resp)) /\
  (use_ai G (user_id request) = false ->
   forall rp rows,
     risk_profile request = Some rp -> df_assets G = AssetFrame rows ->
     exists resp,
       recommend G request = Ok resp /\
       String.prefix "Rule-Based" (source resp) = true /\
       get_cold_start_recs G (risk_profile request) (top_k request)
       = Ok (recommendations resp)) /\
  (MODEL_SVD G = None -> use_ai G (user_id request) = false).
Proof.
  split; [ | split].
  - intros Hai. destruct (recommend_warm G request Hai) as (m & Hm & H).
    eexists. split; [exact H | ]. split; [reflexivity | ].
    now apply get_warm_start_recs_ok.
  - intros Hai rp rows Hrp Hdf. eexists.
    split; [now apply (recommend_cold G request rp rows) | ].
    split; [reflexivity | ].
    unfold get_cold_start_recs. now rewrite Hrp, Hdf.
  - apply use_ai_no_model.
Qed.

(** * The claims *)

(** C1 (dispatch and provenance). The claim promises a Rule-Based answer to
    every request when the model is absent or the user unknown. The code
    takes the cold branch there, but the branch raises instead of answering:
    with [risk_profile] sent as [null] the substring test raises
    [TypeError], and with the catalog file missing the column lookup raises
    [KeyError]. No provenance label is produced in either case. *)
Theorem cold_path_raises_without_provenance :
  post_recommend (startup None (Some catalog3))
    {| raw_user_id := Some "u1"; raw_risk_profile := Some None;
       raw_top_k := Some 5 |}
  = Raise TypeError
  /\
  post_recommend (startup (Some model3) (Some catalog3))
    {| raw_user_id := Some "u2"; raw_risk_profile := Some None;
       raw_top_k := None |}
  = Raise TypeError
  /\
  post_recommend (startup None None)
    {| raw_user_id := Some "u1"; raw_risk_profile := None;
       raw_top_k := None |}
  = Raise KeyError.
Proof. repeat split. Qed.

(** C2, as stated, fails: ["Aggressive Growth"] is not one of the three
    profile names, yet the answer is not the one of the Balanced table. *)
Lemma cold_start_unrecognized_profile_not_balanced :
  get_cold_start_recs (startup None (Some catalog4))
    (Some "Aggressive Growth") 5
  <> Ok (map ISIN
           (firstn 5
              (filter
                 (fun a =>
                    Py.isin (spec_eligible_categories "Aggressive Growth")
                            (assetCategory a))
                 catalog4))).
Proof. vm_compute. discriminate. Qed.

(** C2 (cold-start ranker), amended. A profile that contains
    ["Conservative"] selects {Bond}; otherwise one that contains
    ["Aggressive"] selects {Stock}; every other string selects
    {Stock, MTF}. On a loaded catalog and for a count [K >= 0] the ranker
    returns the identifiers of the first [K] assets, in catalog order, whose
    category is selected, and all of them when there are fewer than [K]. *)
Theorem cold_start_filter_truncate
        (model_file : option Model) (rows : list Asset)
        (rp : string) (K : Z) :
  0 <= K ->
  exists cats : list string,
    (if Py.contains "Conservative" rp then cats = ["Bond"]
     else if Py.contains "Aggressive" rp then cats = ["Stock"]
     else cats = ["Stock"; "MTF"]) /\
    (rp = "Conservative" -> cats = ["Bond"]) /\
    (rp = "Aggressive" -> cats = ["Stock"]) /\
    (rp = "Balanced" -> cats = ["Stock"; "MTF"]) /\
    let eligible :=
      filter (fun a => Py.isin cats (assetCategory a)) rows in
    get_cold_start_recs (startup model_file (Some rows)) (Some rp) K
    = Ok (map ISIN (firstn (Z.to_nat K) eligible)) /\
    (Z.of_nat (length eligible) <= K ->
     get_cold_start_recs (startup model_file (Some rows)) (Some rp) K
     = Ok (map ISIN eligible)).
Proof.
  intros HK. exists (target_cats rp). repeat split.
  - unfold target_cats.
    destruct (Py.contains "Conservative" rp); [reflexivity | ].
    destruct (Py.contains "Aggressive" rp); reflexivity.
  - intros ->. reflexivity.
  - intros ->. reflexivity.
  - intros ->. reflexivity.
  - unfold get_cold_start_recs. simpl. now rewrite slice_to_nonneg.
  - intros Hlen. unfold get_cold_start_recs. simpl.
    now rewrite slice_to_all.
Qed.

Lemma cold_start_filter_truncate_witness :
  0 <= 1 /\
  get_cold_start_recs (startup None (Some catalog4)) (Some "Balanced") 1
  = Ok ["A2"].
Proof.
  split; [lia | ].
  destruct (cold_start_filter_truncate None catalog4 "Balanced" 1)
    as (cats & _ & _ & _ & Hcats & Hrecs & _); [lia | ].
  rewrite Hrecs, (Hcats eq_refl). reflexivity.
Defined.

(** C3 (warm-start ranker). With the model loaded, the ranker answers for
    every user and count. Its answer is a prefix of one ranking of the
    catalog identifiers: the ranking holds every identifier of the catalog,
    it is sorted by descending affinity, and for [K >= 0] the answer is its
    first [K] entries. Hence any two returned assets at positions [i < j]
    have [predictAffinity(u, a) >= predictAffinity(u, b)]. *)
Theorem warm_start_ranked_by_affinity
        (m : Model) (asset_file : option (list Asset)) (u : string) (K : Z) :
  let G := startup (Some m) asset_file in
  exists ranked recs : list string,
    get_warm_start_recs G u K = Ok recs /\
    Permutation ranked (ALL_ASSET_IDS G) /\
    (forall rows asset,
        asset_file = Some rows -> In asset rows -> In (ISIN asset) ranked) /\
    StronglySorted
      (fun a b => (predict_est m u b <= predict_est m u a)%Q) ranked /\
    (0 <= K -> recs = firstn (Z.to_nat K) ranked) /\
    (forall i j a b,
        (i < j)%nat ->
        nth_error recs i = Some a -> nth_error recs j = Some b ->
        (predict_est m u b <= predict_est m u a)%Q).
Proof.
  intros G.
  exists (ranking m u (ALL_ASSET_IDS G)),
         (Py.slice_to K (ranking m u (ALL_ASSET_IDS G))).
  split; [now apply get_warm_start_recs_ok | ].
  split; [apply ranking_perm | ].
  split.
  { intros rows asset -> Hin.
    apply (Permutation_in _ (Permutation_sym (ranking_perm m u _))).
    simpl. apply unique_In. now apply in_map. }
  split; [apply ranking_sorted | ].
  split; [apply slice_to_nonneg | ].
  intros i j a b Hij Hi Hj.
  destruct (slice_to_prefix K (ranking m u (ALL_ASSET_IDS G))) as [n Hn].
  rewrite Hn in Hi, Hj.
  apply (StronglySorted_before
           (fun a b => (predict_est m u b <= predict_est m u a)%Q)
           (ranking m u (ALL_ASSET_IDS G)) a b);
    [apply ranking_sorted | ].
  apply (before_firstn _ _ n). apply before_nth. now exists i, j.
Qed.

Lemma warm_start_ranked_by_affinity_witness :
  get_warm_start_recs (startup (Some model3) (Some catalog3)) "u1" 2
  = Ok ["A1"; "A3"] /\
  (predict_est model3 "u1" "A3" <= predict_est model3 "u1" "A1")%Q.
Proof.
  destruct (warm_start_ranked_by_affinity model3 (Some catalog3) "u1" 2)
    as (ranked & recs & Hok & _ & _ & _ & _ & Hord).
  split; [reflexivity | ].
  cbv in Hok. injection Hok as <-.
  apply (Hord 0%nat 1%nat "A1" "A3"); [lia | reflexivity | reflexivity].
Defined.

(** C4, as stated, fails: requests with [top_k = 0] and [top_k = 51] are
    answered, each with a response body that carries a recommendation
    list. *)
Lemma top_k_out_of_range_answered :
  post_recommend (startup None (Some catalog3))
    {| raw_user_id := Some "u1"; raw_risk_profile := Some (Some "Aggressive");
       raw_top_k := Some 0 |}
  = Ok {| resp_user_id := "u1"; source := "Rule-Based (Aggressive)";
          recommendations := [] |}
  /\
  post_recommend (startup None (Some catalog3))
    {| raw_user_id := Some "u1"; raw_risk_profile := Some (Some "Aggressive");
       raw_top_k := Some 51 |}
  = Ok {| resp_user_id := "u1"; source := "Rule-Based (Aggressive)";
          recommendations := ["A2"] |}
  /\
  post_recommend (startup None (Some catalog3))
    {| raw_user_id := Some "u1"; raw_risk_profile := Some (Some "Aggressive");
       raw_top_k := Some 0 |}
  <> Raise ValidationError
  /\
  post_recommend (startup None (Some catalog3))
    {| raw_user_id := Some "u1"; raw_risk_profile := Some (Some "Aggressive");
       raw_top_k := Some 51 |}
  <> Raise ValidationError.
Proof. repeat split; vm_compute; discriminate. Qed.

(** C4 (top_k range), amended. The service puts no range constraint on
    [top_k]: a request that carries a user id and a [top_k] outside
    [1 .. 50] passes validation with that [top_k] unchanged, is handed to
    [recommend] like any other request, and is never rejected with a
    [ValidationError]. *)
Theorem top_k_unconstrained
        (G : Globals) (u : string) (rp : option (option string)) (k : Z) :
  k < 1 \/ 50 < k ->
  let raw := {| raw_user_id := Some u; raw_risk_profile := rp;
                raw_top_k := Some k |} in
  (exists request,
      parse_request raw = Ok request /\ top_k request = k /\
      post_recommend G raw = recommend G request) /\
  post_recommend G raw <> Raise ValidationError.
Proof.
  intros _ raw. split.
  - eexists. split; [reflexivity | ]. split; reflexivity.
  - unfold post_recommend. simpl. intros H.
    apply recommend_Raise_inv in H as (_ & [[H _] | [H _]]); discriminate.
Qed.

Lemma top_k_unconstrained_witness :
  (51 < 1 \/ 50 < 51) /\
  post_recommend (startup None (Some catalog3))
    {| raw_user_id := Some "u1"; raw_risk_profile := None;
       raw_top_k := Some 51 |}
  <> Raise ValidationError.
Proof.
  split; [right; lia | ].
  apply (top_k_unconstrained (startup None (Some catalog3)) "u1" None 51).
  right; lia.
Defined.

(** C5, as stated, fails: a request whose [user_id] is the empty string is
    answered with recommendations. *)
Lemma empty_user_id_answered :
  post_recommend (startup (Some model3) (Some catalog3))
    {| raw_user_id := Some ""; raw_risk_profile := None; raw_top_k := None |}
  = Ok {| resp_user_id := ""; source := "Rule-Based (Balanced)";
          recommendations := ["A2"] |}.
Proof. reflexivity. Qed.

(** C5 (user_id validation), amended. A request without a [user_id] is
    rejected with a [ValidationError] whatever model and catalog are loaded,
    so no ranker takes part; a request whose [user_id] is present, the empty
    string included, passes validation and is processed by [recommend]. *)
Theorem user_id_validation (raw : RawRequest) :
  (raw_user_id raw = None ->
   parse_request raw = Raise ValidationError /\
   forall G, post_recommend G raw = Raise ValidationError) /\
  (forall u, raw_user_id raw = Some u ->
   exists request,
     parse_request raw = Ok request /\ user_id request = u /\
     forall G, post_recommend G raw = recommend G request).
Proof.
  split.
  - intros Hu. unfold post_recommend, parse_request. rewrite Hu. auto.
  - intros u Hu. unfold post_recommend, parse_request. rewrite Hu.
    eexists. split; [reflexivity | ]. split; [reflexivity | ].
    intros G. reflexivity.
Qed.

Lemma user_id_validation_witness :
  post_recommend (startup (Some model3) (Some catalog3))
    {| raw_user_id := None; raw_risk_profile := None; raw_top_k := None |}
  = Raise ValidationError.
Proof.
  apply (proj1 (user_id_validation
                  {| raw_user_id := None; raw_risk_profile := None;
                     raw_top_k := None |})).
  reflexivity.
Defined.

(** C6, as stated, fails: ["Very Conservative"] is outside the enumeration
    but does not behave like ["Balanced"]. *)
Lemma conservative_substring_not_balanced :
  get_cold_start_recs (startup None (Some catalog4))
    (Some "Very Conservative") 5
  = Ok ["A1"; "A3"]
  /\
  get_cold_start_recs (startup None (Some catalog4)) (Some "Balanced") 5
  = Ok ["A2"; "A4"]
  /\
  target_cats "Very Conservative" <> ["Stock"; "MTF"]
  /\
  get_cold_start_recs (startup None (Some catalog4))
    (Some "Very Conservative") 5
  <> get_cold_start_recs (startup None (Some catalog4)) (Some "Balanced") 5.
Proof. repeat split; vm_compute; discriminate. Qed.

(** C6 (default mapping), amended. A request that leaves [risk_profile] out
    is answered exactly like the same request with ["Balanced"]. A string
    profile that contains neither ["Conservative"] nor ["Aggressive"]
    selects the categories of ["Balanced"], {Stock, MTF}, and on the cold
    path yields the same ordered recommendation list as ["Balanced"]. *)
Theorem risk_profile_default_is_balanced :
  (forall G u k,
      post_recommend G
        {| raw_user_id := u; raw_risk_profile := None; raw_top_k := k |}
      = post_recommend G
          {| raw_user_id := u; raw_risk_profile := Some (Some "Balanced");
             raw_top_k := k |}) /\
  (forall rp,
      Py.contains "Conservative" rp = false ->
      Py.contains "Aggressive" rp = false ->
      target_cats rp = ["Stock"; "MTF"] /\
      target_cats rp = target_cats "Balanced" /\
      forall G k,
        get_cold_start_recs G (Some rp) k
        = get_cold_start_recs G (Some "Balanced") k /\
        forall u,
          use_ai G u = false ->
          result_map recommendations
            (recommend G
               {| user_id := u; risk_profile := Some rp; top_k := k |})
          = result_map recommendations
              (recommend G
                 {| user_id := u; risk_profile := Some "Balanced";
                    top_k := k |})).
Proof.
  split; [reflexivity | ].
  intros rp Hc Ha.
  assert (target_cats rp = ["Stock"; "MTF"]) as Hcats.
  { unfold target_cats. now rewrite Hc, Ha. }
  split; [assumption | ]. split; [now rewrite Hcats | ].
  intros G k.
  assert (get_cold_start_recs G (Some rp) k
          = get_cold_start_recs G (Some "Balanced") k) as Hcold.
  { unfold get_cold_start_recs. now rewrite Hcats. }
  split; [assumption | ].
  intros u Hu. unfold recommend. cbn [user_id risk_profile top_k].
  rewrite Hu, Hcold.
  destruct (get_cold_start_recs G (Some "Balanced") k); reflexivity.
Qed.

Lemma risk_profile_default_is_balanced_witness :
  Py.contains "Conservative" "Moderate" = false /\
  Py.contains "Aggressive" "Moderate" = false /\
  target_cats "Moderate" = ["Stock"; "MTF"].
Proof.
  split; [reflexivity | ]. split; [reflexivity | ].
  apply (proj2 risk_profile_default_is_balanced "Moderate"); reflexivity.
Defined.

(** C7, as stated, fails: the service answers a request with [top_k = -1],
    and the list it returns is longer than [top_k], on either path. *)
Lemma negative_top_k_exceeds_bound :
  recommend (startup None (Some stocks3))
    {| user_id := "u1"; risk_profile := Some "Aggressive"; top_k := -1 |}
  = Ok {| resp_user_id := "u1"; source := "Rule-Based (Aggressive)";
          recommendations := ["S1"; "S2"] |}
  /\
  recommend (startup (Some model_ties) (Some stocks3))
    {| user_id := "u1"; risk_profile := Some "Aggressive"; top_k := -1 |}
  = Ok {| resp_user_id := "u1"; source := "AI Model (SVD)";
          recommendations := ["S1"; "S2"] |}
  /\
  ~ (Z.of_nat (length ["S1"; "S2"]) <= -1).
Proof. repeat split. simpl. lia. Qed.

(** C7 (length invariant), amended. For every request with [top_k >= 0]
    that the service answers, on the cold and on the warm path,
    [0 <= len(recommendations) <= top_k]. The warm path answers every such
    request; the cold path answers when the risk profile is a string and the
    catalog was loaded. *)
Theorem recommendations_length_bound
        (G : Globals) (request : RecommendationRequest) :
  0 <= top_k request ->
  (forall resp,
      recommend G request = Ok resp ->
      0 <= Z.of_nat (length (recommendations resp)) <= top_k request) /\
  (use_ai G (user_id request) = true ->
   exists resp, recommend G request = Ok resp) /\
  (forall rp rows,
      use_ai G (user_id request) = false ->
      risk_profile request = Some rp -> df_assets G = AssetFrame rows ->
      exists resp, recommend G request = Ok resp).
Proof.
  intros Hk. split; [ | split].
  - intros resp H. split; [lia | ].
    apply recommend_Ok_inv in H
      as [(m & _ & _ & _ & ->) | (rp & rows & _ & _ & _ & _ & ->)].
    + now apply slice_to_length.
    + rewrite length_map. now apply slice_to_length.
  - intros Hai. destruct (recommend_warm G request Hai) as (m & _ & H).
    eexists. exact H.
  - intros rp rows Hai Hrp Hdf. eexists.
    now apply (recommend_cold G request rp rows).
Qed.

Lemma recommendations_length_bound_witness :
  0 <= 2 /\
  0 <= Z.of_nat (length ["A1"; "A3"]) <= 2.
Proof.
  split; [lia | ].
  apply (proj1 (recommendations_length_bound
                  (startup (Some model3) (Some catalog3))
                  {| user_id := "u1"; risk_profile := Some "Balanced";
                     top_k := 2 |}
                  ltac:(simpl; lia))
               {| resp_user_id := "u1"; source := "AI Model (SVD)";
                  recommendations := ["A1"; "A3"] |}).
  reflexivity.
Defined.

(** C8 (no duplicates). When the identifiers of the catalog are unique,
    both rankers answer with a list that repeats no identifier, and so does
    every response of the service. *)
Theorem recommendations_no_duplicates
        (model_file : option Model) (rows : list Asset) :
  NoDup (map ISIN rows) ->
  let G := startup model_file (Some rows) in
  (forall rp k,
      exists recs,
        get_cold_start_recs G (Some rp) k = Ok recs /\ NoDup recs) /\
  (forall m u k,
      model_file = Some m ->
      exists recs, get_warm_start_recs G u k = Ok recs /\ NoDup recs) /\
  (forall request resp,
      recommend G request = Ok resp -> NoDup (recommendations resp)).
Proof.
  intros Hnd G.
  assert (forall cats k,
             NoDup (map ISIN
                      (Py.slice_to k
                         (filter (fun a => Py.isin cats (assetCategory a))
                                 rows)))) as Hcold.
  { intros cats k. rewrite <- slice_to_map.
    destruct (slice_to_prefix k
                (map ISIN
                   (filter (fun a => Py.isin cats (assetCategory a)) rows)))
      as [n ->].
    apply NoDup_firstn.
    clear G. induction rows as [|a l IH]; simpl; [constructor | ].
    inversion Hnd as [|x l' Hx Hl]; subst.
    destruct (Py.isin cats (assetCategory a)); simpl; [ | now apply IH].
    constructor; [ | now apply IH].
    intros Hin. apply Hx. apply in_map_iff in Hin as (b & Hb & Hin).
    apply in_map_iff. exists b. split; [assumption | ].
    apply filter_In in Hin. tauto. }
  assert (forall m u k,
             NoDup (Py.slice_to k (ranking m u (ALL_ASSET_IDS G)))) as Hwarm.
  { intros m u k.
    destruct (slice_to_prefix k (ranking m u (ALL_ASSET_IDS G))) as [n ->].
    apply NoDup_firstn.
    apply (Permutation_NoDup (Permutation_sym (ranking_perm m u _))).
    simpl. apply unique_NoDup. }
  split; [ | split].
  - intros rp k. eexists. split; [reflexivity | apply Hcold].
  - intros m u k ->. eexists.
    split; [now apply get_warm_start_recs_ok | apply Hwarm].
  - intros request resp H.
    apply recommend_Ok_inv in H
      as [(m & _ & _ & _ & ->) | (rp & rows' & _ & _ & Hdf & _ & ->)].
    + apply Hwarm.
    + simpl in Hdf. injection Hdf as <-. apply Hcold.
Qed.

Lemma recommendations_no_duplicates_witness :
  NoDup (map ISIN catalog3) /\ NoDup ["A1"; "A3"].
Proof.
  assert (NoDup (map ISIN catalog3)) as Hnd.
  { simpl. repeat constructor; simpl; intuition discriminate. }
  split; [exact Hnd | ].
  apply (proj2 (proj2 (recommendations_no_duplicates
                         (Some model3) catalog3 Hnd))
               {| user_id := "u1"; risk_profile := Some "Balanced";
                  top_k := 2 |}
               {| resp_user_id := "u1"; source := "AI Model (SVD)";
                  recommendations := ["A1"; "A3"] |}).
  reflexivity.
Defined.

(** C10 (tie-break of the warm path). With the model loaded the ranker
    answers; [ALL_ASSET_IDS], the deduplicated identifier sequence of the
    catalog, repeats no identifier; and two returned assets with equal
    affinity scores, at positions [i < j] of the answer, stand in the same
    order in [ALL_ASSET_IDS]. *)
Theorem warm_start_tie_break_catalog_order
        (m : Model) (asset_file : option (list Asset)) (u : string) (k : Z) :
  let G := startup (Some m) asset_file in
  exists recs,
    get_warm_start_recs G u k = Ok recs /\
    NoDup (ALL_ASSET_IDS G) /\
    forall i j a b,
      (i < j)%nat ->
      nth_error recs i = Some a -> nth_error recs j = Some b ->
      (predict_est m u a == predict_est m u b)%Q ->
      exists i' j',
        (i' < j')%nat /\
        nth_error (ALL_ASSET_IDS G) i' = Some a /\
        nth_error (ALL_ASSET_IDS G) j' = Some b.
Proof.
  intros G. exists (Py.slice_to k (ranking m u (ALL_ASSET_IDS G))).
  split; [now apply get_warm_start_recs_ok | ].
  split.
  { destruct asset_file; simpl; [apply unique_NoDup | constructor]. }
  intros i j a b Hij Hi Hj Heq.
  destruct (slice_to_prefix k (ranking m u (ALL_ASSET_IDS G))) as [n Hn].
  rewrite Hn in Hi, Hj.
  apply before_nth. apply (ranking_stable m u); [ | assumption].
  apply (before_firstn _ _ n). apply before_nth. now exists i, j.
Qed.

Lemma warm_start_tie_break_catalog_order_witness :
  get_warm_start_recs (startup (Some model_ties) (Some catalog3)) "u1" 3
  = Ok ["A1"; "A2"; "A3"] /\
  exists i' j',
    (i' < j')%nat /\
    nth_error (ALL_ASSET_IDS (startup (Some model_ties) (Some catalog3))) i'
    = Some "A1" /\
    nth_error (ALL_ASSET_IDS (startup (Some model_ties) (Some catalog3))) j'
    = Some "A3".
Proof.
  split; [reflexivity | ].
  destruct (warm_start_tie_break_catalog_order
              model_ties (Some catalog3) "u1" 3) as (recs & Hok & _ & Hord).
  cbv in Hok. injection Hok as <-.
  apply (Hord 0%nat 2%nat "A1" "A3");
    [lia | reflexivity | reflexivity | reflexivity].
Defined.

(** * Further properties of the code *)

(** ** More list facts *)

Lemma before_filter {A} (f : A -> bool) (a b : A) l :
  before a b (filter f l) -> before a b l.
Proof.
  induction l as [|x l IH]; simpl; intros H.
  - inversion H.
  - destruct (f x).
    + inversion H as [l0 Hin | y l0 Hb]; subst.
      * apply before_here. apply filter_In in Hin. tauto.
      * apply before_later. now apply IH.
    + apply before_later. now apply IH.
Qed.

Lemma StronglySorted_app_inv {A} (R : A -> A -> Prop) l1 l2 a b :
  StronglySorted R (l1 ++ l2) -> In a l1 -> In b l2 -> R a b.
Proof.
  induction l1 as [|x l1 IH]; simpl; intros Hs Ha Hb.
  - destruct Ha.
  - apply StronglySorted_inv in Hs as [Hs Hall].
    destruct Ha as [-> | Ha]; [ | now apply IH].
    rewrite Forall_forall in Hall. apply Hall. apply in_or_app. now right.
Qed.

(** Two lists with the same elements, both sorted by an asymmetric
    relation, are equal. *)
Lemma sorted_perm_unique {A} (R : A -> A -> Prop) :
  (forall x y, R x y -> R y x -> False) ->
  forall l1 l2,
    StronglySorted R l1 -> StronglySorted R l2 -> Permutation l1 l2 ->
    l1 = l2.
Proof.
  intros Hasym l1. induction l1 as [|x l1 IH]; intros l2 H1 H2 Hp.
  - apply Permutation_nil in Hp. now subst.
  - destruct l2 as [|y l2].
    + apply Permutation_sym, Permutation_nil in Hp. discriminate.
    + apply StronglySorted_inv in H1 as [H1 Hx].
      apply StronglySorted_inv in H2 as [H2 Hy].
      rewrite Forall_forall in Hx, Hy.
      assert (x = y) as ->.
      { assert (In x (y :: l2)) as Hxin
          by (apply (Permutation_in _ Hp); now left).
        assert (In y (x :: l1)) as Hyin
          by (apply (Permutation_in _ (Permutation_sym Hp)); now left).
        destruct Hxin as [-> | Hxin]; [reflexivity | ].
        destruct Hyin as [-> | Hyin]; [reflexivity | ].
        exfalso. apply (Hasym x y); [now apply Hx | now apply Hy]. }
      f_equal. apply IH; try assumption.
      now apply Permutation_cons_inv in Hp.
Qed.

Lemma slice_to_length_exact {A} (k : Z) (l : list A) :
  Z.of_nat (length (Py.slice_to k l))
  = if 0 <=? k then Z.min k (Z.of_nat (length l))
    else Z.max 0 (Z.of_nat (length l) + k).
Proof.
  unfold Py.slice_to. destruct (Z.leb_spec 0 k); rewrite length_firstn; lia.
Qed.

Lemma slice_to_mono {A} (k k' : Z) (l : list A) :
  0 <= k <= k' ->
  Py.slice_to k l = firstn (Z.to_nat k) (Py.slice_to k' l).
Proof.
  intros Hk. rewrite !slice_to_nonneg by lia.
  rewrite firstn_firstn. f_equal. lia.
Qed.

(** For a negative [k], [l[:k]] is [l] without its last [-k] elements. *)
Lemma slice_to_negative {A} (k : Z) (l : list A) :
  k < 0 ->
  exists dropped,
    l = (Py.slice_to k l ++ dropped)%list /\
    Z.of_nat (length dropped) = Z.min (- k) (Z.of_nat (length l)).
Proof.
  intros Hk. unfold Py.slice_to. destruct (Z.leb_spec 0 k); [lia | ].
  exists (skipn (length l - Z.to_nat (- k)) l).
  split; [now rewrite firstn_skipn | ].
  rewrite length_skipn. lia.
Qed.

(** ** The substring test *)

Lemma prefix_iff sub s :
  String.prefix sub s = true <-> exists post, s = sub ++ post.
Proof.
  revert s. induction sub as [|c sub IH]; intros s.
  - split; [intros _; now exists s | intros _; now destruct s].
  - destruct s as [|d s]; simpl.
    + split; [discriminate | intros [post H]; discriminate].
    + destruct (Ascii.ascii_dec c d) as [-> | Hne].
      * rewrite IH. split; intros [post H]; exists post.
        -- now rewrite H.
        -- now injection H.
      * split; [discriminate | ].
        intros [post H]. injection H as H _. congruence.
Qed.

(** [Py.contains sub s] holds exactly when [s] is some text, then [sub],
    then some text. *)
Lemma contains_iff sub s :
  Py.contains sub s = true <-> exists pre post, s = pre ++ sub ++ post.
Proof.
  induction s as [|c s IH];
    cbn [Py.contains]; rewrite orb_true_iff, prefix_iff.
  - split.
    + intros [[post H] | H]; [ | discriminate]. now exists "", post.
    + intros (pre & post & H). left.
      destruct pre as [|d pre]; [ | discriminate]. now exists post.
  - rewrite IH. split.
    + intros [[post H] | (pre & post & H)].
      * now exists "", post.
      * exists (String c pre), post. simpl. now rewrite H.
    + intros (pre & post & H). destruct pre as [|d pre].
      * left. now exists post.
      * right. simpl in H. injection H as _ H. now exists pre, post.
Qed.

Lemma before_unique_from seen l a b :
  before a b (Py.unique_from seen l) -> before a b l.
Proof.
  revert seen. induction l as [|x l IH]; intros seen; simpl; intros H.
  - inversion H.
  - destruct (Py.isin seen x).
    + apply before_later. now apply (IH seen).
    + inversion H as [l0 Hin | y l0 Hb]; subst.
      * apply before_here. apply unique_from_In in Hin. tauto.
      * apply before_later. now apply (IH (x :: seen)).
Qed.

(** ** The category table (main.py, lines 43-48) *)

(** X1. The profile is matched by substring, and "Conservative" is tested
    first: a profile with "Conservative" anywhere in it selects Bond, even
    when it also holds "Aggressive"; without "Conservative" but with
    "Aggressive" anywhere it selects Stock; with neither, Stock and MTF. *)
Theorem target_cats_by_substring (rp : string) :
  ((exists pre post, rp = pre ++ "Conservative" ++ post) ->
   target_cats rp = ["Bond"]) /\
  (~ (exists pre post, rp = pre ++ "Conservative" ++ post) ->
   (exists pre post, rp = pre ++ "Aggressive" ++ post) ->
   target_cats rp = ["Stock"]) /\
  (~ (exists pre post, rp = pre ++ "Conservative" ++ post) ->
   ~ (exists pre post, rp = pre ++ "Aggressive" ++ post) ->
   target_cats rp = ["Stock"; "MTF"]).
Proof.
  unfold target_cats. rewrite <- !contains_iff.
  destruct (Py.contains "Conservative" rp), (Py.contains "Aggressive" rp);
    repeat split; intros; congruence.
Qed.

Lemma target_cats_by_substring_witness :
  target_cats "Aggressive, later Conservative" = ["Bond"].
Proof.
  apply (proj1 (target_cats_by_substring "Aggressive, later Conservative")).
  exists "Aggressive, later ", "". reflexivity.
Defined.

(** ** Start-up (main.py, lines 19-27) *)

(** X2. [ALL_ASSET_IDS] never repeats an identifier. When the catalog file
    loads, it holds exactly the ISINs of the rows, in an order the rows
    already have, and it is the ISIN column itself when that column has no
    repetition. When loading fails, it is empty and [df_assets] is the
    frame without columns. *)
Theorem startup_asset_ids (model_file : option Model)
        (asset_file : option (list Asset)) :
  let G := startup model_file asset_file in
  NoDup (ALL_ASSET_IDS G) /\
  (forall rows,
      asset_file = Some rows ->
      df_assets G = AssetFrame rows /\
      (forall id, In id (ALL_ASSET_IDS G) <->
                  exists a, In a rows /\ ISIN a = id) /\
      (forall a b, before a b (ALL_ASSET_IDS G) ->
                   before a b (map ISIN rows)) /\
      (NoDup (map ISIN rows) -> ALL_ASSET_IDS G = map ISIN rows)) /\
  (asset_file = None ->
   ALL_ASSET_IDS G = [] /\ df_assets G = EmptyFrame).
Proof.
  intros G. split; [ | split].
  - destruct asset_file; simpl; [apply unique_NoDup | constructor].
  - intros rows ->. simpl. split; [reflexivity | ]. split; [ | split].
    + intros id. rewrite unique_In, in_map_iff.
      split; intros (a & H1 & H2); exists a; tauto.
    + intros a b. apply before_unique_from.
    + apply unique_id.
  - intros ->. split; reflexivity.
Qed.

Lemma startup_asset_ids_witness :
  ALL_ASSET_IDS (startup None (Some catalog3)) = map ISIN catalog3.
Proof.
  apply (proj1 (proj2 (startup_asset_ids None (Some catalog3)))
               catalog3 eq_refl).
  simpl. repeat constructor; simpl; intuition discriminate.
Defined.

(** ** The cold ranker (main.py, lines 41-51) *)

(** X3. Category invariant: every identifier the cold ranker returns is the
    ISIN of a catalog row whose category the risk profile selects: Bond for
    a profile with "Conservative" in it, else Stock for one with
    "Aggressive" in it, else Stock or MTF. *)
Theorem cold_start_category_invariant
        (G : Globals) (rp : string) (k : Z) (recs : list string) :
  get_cold_start_recs G (Some rp) k = Ok recs ->
  forall id,
    In id recs ->
    exists rows a,
      df_assets G = AssetFrame rows /\ In a rows /\ ISIN a = id /\
      (if Py.contains "Conservative" rp then assetCategory a = "Bond"
       else if Py.contains "Aggressive" rp then assetCategory a = "Stock"
       else assetCategory a = "Stock" \/ assetCategory a = "MTF").
Proof.
  unfold get_cold_start_recs. intros H id Hid.
  destruct (df_assets G) as [|rows]; [discriminate | ].
  simpl in H. injection H as <-.
  apply in_map_iff in Hid as (a & Ha & Hin).
  destruct (slice_to_prefix k
              (filter (fun a => Py.isin (target_cats rp) (assetCategory a))
                      rows)) as [n Hn].
  rewrite Hn in Hin. apply In_firstn in Hin.
  apply filter_In in Hin as [Hin Hcat]. apply isin_In in Hcat.
  exists rows, a. repeat split; try assumption.
  unfold target_cats in Hcat.
  destruct (Py.contains "Conservative" rp);
    [ | destruct (Py.contains "Aggressive" rp)];
    simpl in Hcat; intuition congruence.
Qed.

Lemma cold_start_category_invariant_witness :
  exists rows a,
    df_assets (startup None (Some catalog4)) = AssetFrame rows /\
    In a rows /\ ISIN a = "A4" /\
    (assetCategory a = "Stock" \/ assetCategory a = "MTF").
Proof.
  apply (cold_start_category_invariant
           (startup None (Some catalog4)) "Balanced" 5 ["A2"; "A4"]
           eq_refl "A4").
  simpl. auto.
Defined.

(** X4. The cold ranker keeps the order of the catalog: two identifiers it
    returns one before the other stand in that order in the ISIN column of
    the catalog. *)
Theorem cold_start_keeps_catalog_order
        (G : Globals) (rows : list Asset) (rp : string) (k : Z)
        (recs : list string) :
  df_assets G = AssetFrame rows ->
  get_cold_start_recs G (Some rp) k = Ok recs ->
  forall a b, before a b recs -> before a b (map ISIN rows).
Proof.
  unfold get_cold_start_recs. intros -> H a b Hb.
  simpl in H. injection H as <-.
  destruct (slice_to_prefix k
              (filter (fun a => Py.isin (target_cats rp) (assetCategory a))
                      rows)) as [n Hn].
  rewrite Hn in Hb. apply before_map_inv in Hb as (x & y & <- & <- & Hb).
  apply before_map. apply before_firstn in Hb.
  now apply before_filter in Hb.
Qed.

Lemma cold_start_keeps_catalog_order_witness :
  before "A1" "A3" (map ISIN catalog3).
Proof.
  apply (cold_start_keeps_catalog_order
           (startup None (Some catalog3)) catalog3 "Conservative" 5
           ["A1"; "A3"] eq_refl eq_refl).
  apply before_here. simpl. auto.
Defined.

(** ** Both rankers and the count (main.py, lines 41-61) *)

(** X5. The length of an answer. With [n] the number of eligible assets
    (cold) or of distinct identifiers (warm), a count [k >= 0] gives
    [min(k, n)] identifiers, so exactly [k] whenever [n >= k]; a negative
    count gives [max(0, n + k)]. *)
Theorem ranker_answer_length (G : Globals) (k : Z) :
  (forall rows rp,
      df_assets G = AssetFrame rows ->
      exists recs,
        get_cold_start_recs G (Some rp) k = Ok recs /\
        let n := Z.of_nat
                   (length
                      (filter
                         (fun a => Py.isin (target_cats rp) (assetCategory a))
                         rows)) in
        Z.of_nat (length recs)
        = if 0 <=? k then Z.min k n else Z.max 0 (n + k)) /\
  (forall m u,
      MODEL_SVD G = Some m ->
      exists recs,
        get_warm_start_recs G u k = Ok recs /\
        let n := Z.of_nat (length (ALL_ASSET_IDS G)) in
        Z.of_nat (length recs)
        = if 0 <=? k then Z.min k n else Z.max 0 (n + k)).
Proof.
  split.
  - intros rows rp Hdf. unfold get_cold_start_recs. rewrite Hdf.
    eexists. split; [reflexivity | ]. simpl.
    rewrite length_map. apply slice_to_length_exact.
  - intros m u Hm. rewrite (get_warm_start_recs_ok G m) by assumption.
    eexists. split; [reflexivity | ]. simpl.
    rewrite slice_to_length_exact.
    now rewrite (Permutation_length (ranking_perm m u (ALL_ASSET_IDS G))).
Qed.

Lemma ranker_answer_length_witness :
  exists recs,
    get_warm_start_recs (startup (Some model3) (Some catalog3)) "u1" (-1)
    = Ok recs /\
    Z.of_nat (length recs) = 2.
Proof.
  apply (proj2 (ranker_answer_length
                  (startup (Some model3) (Some catalog3)) (-1))
               model3 "u1" eq_refl).
Defined.

(** X6. Answers are nested in the count: when a request is answered, the
    same request with a smaller count [0 <= k <= top_k] is answered with the
    same label and the first [k] identifiers of that answer. *)
Theorem smaller_top_k_is_prefix
        (G : Globals) (request : RecommendationRequest)
        (resp : RecommendationResponse) (k : Z) :
  0 <= k <= top_k request ->
  recommend G request = Ok resp ->
  recommend G {| user_id := user_id request;
                 risk_profile := risk_profile request;
                 top_k := k |}
  = Ok {| resp_user_id := user_id request;
          source := source resp;
          recommendations := firstn (Z.to_nat k) (recommendations resp) |}.
Proof.
  intros Hk H.
  apply recommend_Ok_inv in H
    as [(m & Hai & Hm & -> & ->) | (rp & rows & Hai & Hrp & Hdf & -> & ->)].
  - destruct (recommend_warm G
                {| user_id := user_id request;
                   risk_profile := risk_profile request; top_k := k |} Hai)
      as (m' & Hm' & ->).
    simpl. rewrite Hm in Hm'. injection Hm' as <-.
    now rewrite (slice_to_mono k (top_k request)).
  - rewrite (recommend_cold G
               {| user_id := user_id request;
                  risk_profile := risk_profile request; top_k := k |}
               rp rows Hai Hrp Hdf).
    simpl. rewrite (slice_to_mono k (top_k request)) by assumption.
    now rewrite firstn_map.
Qed.

Lemma smaller_top_k_is_prefix_witness :
  recommend (startup (Some model3) (Some catalog3))
    {| user_id := "u1"; risk_profile := Some "Balanced"; top_k := 1 |}
  = Ok {| resp_user_id := "u1"; source := "AI Model (SVD)";
          recommendations := ["A1"] |}.
Proof.
  apply (smaller_top_k_is_prefix
           (startup (Some model3) (Some catalog3))
           {| user_id := "u1"; risk_profile := Some "Balanced"; top_k := 3 |}
           {| resp_user_id := "u1"; source := "AI Model (SVD)";
              recommendations := ["A1"; "A3"; "A2"] |} 1).
  - simpl. lia.
  - reflexivity.
Defined.

(** X7. A negative count drops the tail: for [k < 0] each ranker returns its
    full list (all eligible identifiers in catalog order, or the full
    ranking) without the last [-k] entries. *)
Theorem negative_top_k_drops_tail (G : Globals) (k : Z) :
  k < 0 ->
  (forall rows rp,
      df_assets G = AssetFrame rows ->
      exists recs dropped,
        get_cold_start_recs G (Some rp) k = Ok recs /\
        map ISIN
          (filter (fun a => Py.isin (target_cats rp) (assetCategory a)) rows)
        = (recs ++ dropped)%list /\
        Z.of_nat (length dropped)
        = Z.min (- k) (Z.of_nat (length (recs ++ dropped)%list))) /\
  (forall m u,
      MODEL_SVD G = Some m ->
      exists recs dropped,
        get_warm_start_recs G u k = Ok recs /\
        ranking m u (ALL_ASSET_IDS G) = (recs ++ dropped)%list /\
        Z.of_nat (length dropped)
        = Z.min (- k) (Z.of_nat (length (recs ++ dropped)%list))).
Proof.
  intros Hk. split.
  - intros rows rp Hdf. unfold get_cold_start_recs. rewrite Hdf. simpl.
    rewrite <- slice_to_map.
    destruct (slice_to_negative k
                (map ISIN
                   (filter
                      (fun a => Py.isin (target_cats rp) (assetCategory a))
                      rows)) Hk) as (dropped & Heq & Hlen).
    eexists. exists dropped. split; [reflexivity | ].
    split; [exact Heq | ]. now rewrite <- Heq.
  - intros m u Hm. rewrite (get_warm_start_recs_ok G m) by assumption.
    destruct (slice_to_negative k (ranking m u (ALL_ASSET_IDS G)) Hk)
      as (dropped & Heq & Hlen).
    eexists. exists dropped. split; [reflexivity | ].
    split; [exact Heq | ]. now rewrite <- Heq.
Qed.

Lemma negative_top_k_drops_tail_witness :
  exists recs dropped,
    get_cold_start_recs (startup None (Some stocks3)) (Some "Aggressive") (-1)
    = Ok recs /\
    map ISIN
      (filter (fun a => Py.isin (target_cats "Aggressive") (assetCategory a))
              stocks3)
    = (recs ++ dropped)%list /\
    Z.of_nat (length dropped)
    = Z.min (- -1) (Z.of_nat (length (recs ++ dropped)%list)).
Proof.
  apply (proj1 (negative_top_k_drops_tail
                  (startup None (Some stocks3)) (-1) ltac:(lia))
               stocks3 "Aggressive" eq_refl).
Defined.

(** ** The endpoint (main.py, lines 64-85) *)

(** X8. How the cold path fails. When the model is absent or does not know
    the user, a request with [risk_profile] sent as [null] raises
    [TypeError] whatever state the catalog is in, the failed load included;
    and a request with a string or defaulted profile raises [KeyError] when
    the catalog failed to load. *)
Theorem cold_path_failures (G : Globals) (raw : RawRequest) (u : string) :
  raw_user_id raw = Some u ->
  use_ai G u = false ->
  (raw_risk_profile raw = Some None ->
   post_recommend G raw = Raise TypeError) /\
  (raw_risk_profile raw <> Some None ->
   df_assets G = EmptyFrame ->
   post_recommend G raw = Raise KeyError).
Proof.
  intros Hu Hai.
  unfold post_recommend, parse_request, recommend, get_cold_start_recs.
  rewrite Hu. simpl. rewrite Hai. split.
  - intros ->. reflexivity.
  - intros Hrp ->.
    destruct (raw_risk_profile raw) as [[rp|]|];
      [reflexivity | congruence | reflexivity].
Qed.

Lemma cold_path_failures_witness :
  post_recommend (startup (Some model3) None)
    {| raw_user_id := Some "u2"; raw_risk_profile := None;
       raw_top_k := Some 3 |}
  = Raise KeyError.
Proof.
  apply (proj2 (cold_path_failures
                  (startup (Some model3) None)
                  {| raw_user_id := Some "u2"; raw_risk_profile := None;
                     raw_top_k := Some 3 |} "u2" eq_refl eq_refl)).
  - discriminate.
  - reflexivity.
Defined.

(** X9. The provenance label tells the path. In every answer the user id is
    the one of the request; the label starts with "AI Model" exactly when
    the model is loaded and knows the user, and is then "AI Model (SVD)";
    otherwise it is "Rule-Based (" followed by the risk profile as sent and
    ")", also for a profile the table treats as Balanced. *)
Theorem provenance_tells_path
        (G : Globals) (request : RecommendationRequest)
        (resp : RecommendationResponse) :
  recommend G request = Ok resp ->
  resp_user_id resp = user_id request /\
  String.prefix "AI Model" (source resp) = use_ai G (user_id request) /\
  (use_ai G (user_id request) = true -> source resp = "AI Model (SVD)") /\
  (use_ai G (user_id request) = false ->
   exists rp,
     risk_profile request = Some rp /\
     source resp = "Rule-Based (" ++ rp ++ ")").
Proof.
  intros H. destruct (use_ai G (user_id request)) eqn:Hai.
  - destruct (recommend_warm G request Hai) as (m & _ & Heq).
    rewrite Heq in H. injection H as <-. simpl.
    repeat split; [discriminate].
  - unfold recommend in H. rewrite Hai in H.
    unfold get_cold_start_recs in H.
    destruct (risk_profile request) as [rp|]; [ | discriminate].
    destruct (df_assets G) as [|rows]; [discriminate | ].
    simpl in H. injection H as <-. simpl.
    repeat split; [discriminate | ]. intros _. now exists rp.
Qed.

Lemma provenance_tells_path_witness :
  String.prefix "AI Model" "Rule-Based (Moderate)"
  = use_ai (startup (Some model3) (Some catalog3)) "u2".
Proof.
  apply (provenance_tells_path
           (startup (Some model3) (Some catalog3))
           {| user_id := "u2"; risk_profile := Some "Moderate"; top_k := 1 |}
           {| resp_user_id := "u2"; source := "Rule-Based (Moderate)";
              recommendations := ["A2"] |} eq_refl).
Defined.

(** X10. For a user the loaded model knows, the risk profile plays no part:
    the request is answered, and the answer is the same for every risk
    profile, [null] included. *)
Theorem warm_path_ignores_risk_profile
        (G : Globals) (u : string) (k : Z) (rp1 rp2 : option string) :
  use_ai G u = true ->
  (exists resp,
      recommend G {| user_id := u; risk_profile := rp1; top_k := k |}
      = Ok resp) /\
  recommend G {| user_id := u; risk_profile := rp1; top_k := k |}
  = recommend G {| user_id := u; risk_profile := rp2; top_k := k |}.
Proof.
  intros Hai.
  destruct (recommend_warm G
              {| user_id := u; risk_profile := rp1; top_k := k |} Hai)
    as (m1 & Hm1 & H1).
  destruct (recommend_warm G
              {| user_id := u; risk_profile := rp2; top_k := k |} Hai)
    as (m2 & Hm2 & H2).
  split; [eexists; exact H1 | ].
  rewrite H1, H2. rewrite Hm1 in Hm2. injection Hm2 as <-. reflexivity.
Qed.

Lemma warm_path_ignores_risk_profile_witness :
  recommend (startup (Some model3) (Some catalog3))
    {| user_id := "u1"; risk_profile := None; top_k := 2 |}
  = recommend (startup (Some model3) (Some catalog3))
      {| user_id := "u1"; risk_profile := Some "Conservative"; top_k := 2 |}.
Proof.
  apply (warm_path_ignores_risk_profile
           (startup (Some model3) (Some catalog3)) "u1" 2
           None (Some "Conservative")).
  reflexivity.
Defined.

(** ** The warm ranker (main.py, lines 53-61) *)

(** X11. Called without a model, the warm ranker raises [AttributeError] at
    the first asset it tries to score; with no asset to score it returns the
    empty list. *)
Theorem warm_start_without_model (G : Globals) (u : string) (k : Z) :
  MODEL_SVD G = None ->
  (ALL_ASSET_IDS G = [] -> get_warm_start_recs G u k = Ok []) /\
  (ALL_ASSET_IDS G <> [] ->
   get_warm_start_recs G u k = Raise AttributeError).
Proof.
  intros Hm. unfold get_warm_start_recs. split.
  - intros ->. simpl. f_equal. unfold Py.slice_to.
    destruct (0 <=? k); now rewrite firstn_nil.
  - destruct (ALL_ASSET_IDS G) as [|a ids]; [congruence | ].
    intros _. simpl. now rewrite Hm.
Qed.

Lemma warm_start_without_model_witness :
  get_warm_start_recs (startup None (Some catalog3)) "u1" 2
  = Raise AttributeError.
Proof.
  apply (proj2 (warm_start_without_model
                  (startup None (Some catalog3)) "u1" 2 eq_refl)).
  discriminate.
Defined.

(** X12. The warm ranker never repeats an identifier, whatever the catalog
    holds, repeated rows included; and a count that reaches the number of
    distinct identifiers returns every one of them exactly once. *)
Theorem warm_start_no_repeat_full_coverage
        (m : Model) (asset_file : option (list Asset)) (u : string) (k : Z) :
  let G := startup (Some m) asset_file in
  exists recs,
    get_warm_start_recs G u k = Ok recs /\
    NoDup recs /\
    (Z.of_nat (length (ALL_ASSET_IDS G)) <= k ->
     Permutation recs (ALL_ASSET_IDS G)).
Proof.
  intros G. rewrite (get_warm_start_recs_ok G m) by reflexivity.
  eexists. split; [reflexivity | ].
  assert (NoDup (ranking m u (ALL_ASSET_IDS G))) as Hnd.
  { apply (Permutation_NoDup (Permutation_sym (ranking_perm m u _))).
    destruct asset_file; simpl; [apply unique_NoDup | constructor]. }
  split.
  - destruct (slice_to_prefix k (ranking m u (ALL_ASSET_IDS G))) as [n ->].
    now apply NoDup_firstn.
  - intros Hk. rewrite slice_to_all; [apply ranking_perm | ].
    now rewrite (Permutation_length (ranking_perm m u (ALL_ASSET_IDS G))).
Qed.

Lemma warm_start_no_repeat_full_coverage_witness :
  Permutation ["A1"; "A3"; "A2"]
              (ALL_ASSET_IDS (startup (Some model3) (Some catalog3))).
Proof.
  destruct (warm_start_no_repeat_full_coverage
              model3 (Some catalog3) "u1" 3) as (recs & Hok & _ & Hperm).
  cbv in Hok. injection Hok as <-.
  apply Hperm. simpl. lia.
Defined.

(** X13. An empty answer of the cold ranker: for a count [k >= 1] on a
    loaded catalog the answer is the empty list exactly when no catalog row
    has a category the risk profile selects. *)
Theorem cold_start_empty_iff
        (G : Globals) (rows : list Asset) (rp : string) (k : Z) :
  1 <= k ->
  df_assets G = AssetFrame rows ->
  get_cold_start_recs G (Some rp) k = Ok [] <->
  forall a, In a rows -> ~ In (assetCategory a) (target_cats rp).
Proof.
  intros Hk Hdf. unfold get_cold_start_recs. rewrite Hdf. simpl.
  rewrite slice_to_nonneg by lia.
  set (f := fun a => Py.isin (target_cats rp) (assetCategory a)).
  split.
  - intros H a Ha Hcat. injection H as H.
    apply map_eq_nil in H.
    assert (In a (filter f rows)) as Hin.
    { apply filter_In. split; [assumption | now apply isin_In]. }
    destruct (filter f rows) as [|b l]; [destruct Hin | ].
    destruct (Z.to_nat k) eqn:E; [lia | discriminate].
  - intros H. replace (filter f rows) with (@nil Asset).
    + now rewrite firstn_nil.
    + symmetry. clear Hdf.
      induction rows as [|a rows IH]; simpl; [reflexivity | ].
      destruct (f a) eqn:E.
      * exfalso. apply (H a); [now left | now apply isin_In].
      * apply IH. intros b Hb. apply H. now right.
Qed.

Lemma cold_start_empty_iff_witness :
  get_cold_start_recs (startup None (Some stocks3)) (Some "Conservative") 5
  = Ok [].
Proof.
  apply (proj2 (cold_start_empty_iff
                  (startup None (Some stocks3)) stocks3 "Conservative" 5
                  ltac:(lia) eq_refl)).
  intros a [<- | [<- | [<- | []]]]; simpl; intuition discriminate.
Defined.

(** X14. The warm ranker returns a top of the catalog: every identifier it
    returns scores at least as high as every identifier of the catalog it
    leaves out. *)
Theorem warm_start_top_k_optimal
        (G : Globals) (m : Model) (u : string) (k : Z)
        (recs : list string) :
  MODEL_SVD G = Some m ->
  get_warm_start_recs G u k = Ok recs ->
  forall a b,
    In a recs -> In b (ALL_ASSET_IDS G) -> ~ In b recs ->
    (predict_est m u b <= predict_est m u a)%Q.
Proof.
  intros Hm H a b Ha Hb Hnb.
  rewrite (get_warm_start_recs_ok G m) in H by assumption.
  injection H as <-.
  destruct (slice_to_prefix k (ranking m u (ALL_ASSET_IDS G))) as [n Hn].
  rewrite Hn in Ha, Hnb.
  apply (Permutation_in _ (Permutation_sym (ranking_perm m u _))) in Hb.
  rewrite <- (firstn_skipn n (ranking m u (ALL_ASSET_IDS G))) in Hb.
  apply in_app_or in Hb as [Hb | Hb]; [contradiction | ].
  apply (StronglySorted_app_inv
           (fun a b => (predict_est m u b <= predict_est m u a)%Q)
           (firstn n (ranking m u (ALL_ASSET_IDS G)))
           (skipn n (ranking m u (ALL_ASSET_IDS G)))); try assumption.
  rewrite firstn_skipn. apply ranking_sorted.
Qed.

Lemma warm_start_top_k_optimal_witness :
  (predict_est model3 "u1" "A2" <= predict_est model3 "u1" "A3")%Q.
Proof.
  apply (warm_start_top_k_optimal
           (startup (Some model3) (Some catalog3)) model3 "u1" 2
           ["A1"; "A3"] eq_refl eq_refl "A3" "A2").
  - simpl. auto.
  - simpl. auto.
  - simpl. intuition discriminate.
Defined.

Lemma StronglySorted_strengthen {A} (R R' : A -> A -> Prop) l :
  (forall x y, In x l -> In y l -> x <> y -> R x y -> R' x y) ->
  NoDup l -> StronglySorted R l -> StronglySorted R' l.
Proof.
  intros Himp Hnd Hs. induction Hs as [|x l Hs IH Hall]; constructor.
  - apply IH.
    + intros y z Hy Hz. apply Himp; now right.
    + now inversion Hnd.
  - rewrite Forall_forall in *. intros y Hy.
    apply Himp; [now left | now right | | now apply Hall].
    intros ->. inversion Hnd. contradiction.
Qed.

(** With pairwise distinct scores the ranking of a set of identifiers does
    not depend on the order they are listed in. *)
Lemma ranking_perm_invariant m u ids ids' :
  NoDup ids -> Permutation ids ids' ->
  (forall a b, In a ids -> In b ids ->
               (predict_est m u a == predict_est m u b)%Q -> a = b) ->
  ranking m u ids = ranking m u ids'.
Proof.
  intros Hnd Hp Hinj.
  apply (sorted_perm_unique
           (fun a b => (predict_est m u b < predict_est m u a)%Q)).
  - intros x y Hxy Hyx. apply (Qlt_irrefl (predict_est m u x)).
    eapply Qlt_trans; eassumption.
  - apply (StronglySorted_strengthen
             (fun a b => (predict_est m u b <= predict_est m u a)%Q));
      [ | | apply ranking_sorted].
    + intros x y Hx Hy Hne Hle.
      apply (Permutation_in _ (ranking_perm m u ids)) in Hx, Hy.
      apply Qle_lteq in Hle as [Hlt | Heq]; [assumption | ].
      exfalso. apply Hne. symmetry. now apply Hinj.
    + apply (Permutation_NoDup (Permutation_sym (ranking_perm m u ids))).
      assumption.
  - apply (StronglySorted_strengthen
             (fun a b => (predict_est m u b <= predict_est m u a)%Q));
      [ | | apply ranking_sorted].
    + intros x y Hx Hy Hne Hle.
      apply (Permutation_in _ (ranking_perm m u ids')) in Hx, Hy.
      apply (Permutation_in _ (Permutation_sym Hp)) in Hx, Hy.
      apply Qle_lteq in Hle as [Hlt | Heq]; [assumption | ].
      exfalso. apply Hne. symmetry. now apply Hinj.
    + apply (Permutation_NoDup (Permutation_sym (ranking_perm m u ids'))).
      now apply (Permutation_NoDup Hp).
  - rewrite (ranking_perm m u ids), (ranking_perm m u ids'). exact Hp.
Qed.

(** X15. When the model gives the user pairwise distinct scores for the
    identifiers of the catalog, the warm answer does not depend on the order
    of the catalog rows: reordering the rows leaves it unchanged. *)
Theorem warm_start_independent_of_row_order
        (m : Model) (rows rows' : list Asset) (u : string) (k : Z) :
  Permutation rows rows' ->
  (forall a b, In a rows -> In b rows ->
               (predict_est m u (ISIN a) == predict_est m u (ISIN b))%Q ->
               ISIN a = ISIN b) ->
  get_warm_start_recs (startup (Some m) (Some rows)) u k
  = get_warm_start_recs (startup (Some m) (Some rows')) u k.
Proof.
  intros Hp Hinj.
  rewrite !(get_warm_start_recs_ok _ m) by reflexivity. simpl.
  f_equal. f_equal. apply ranking_perm_invariant.
  - apply unique_NoDup.
  - apply NoDup_Permutation; [apply unique_NoDup | apply unique_NoDup | ].
    intros id. rewrite !unique_In.
    split; apply Permutation_in;
      [now apply Permutation_map | apply Permutation_sym;
                                   now apply Permutation_map].
  - intros a b Ha Hb.
    apply (proj1 (unique_In _ _)) in Ha. apply (proj1 (unique_In _ _)) in Hb.
    apply in_map_iff in Ha as (x & <- & Hx).
    apply in_map_iff in Hb as (y & <- & Hy).
    now apply Hinj.
Qed.

Lemma warm_start_independent_of_row_order_witness :
  get_warm_start_recs (startup (Some model3) (Some catalog3)) "u1" 2
  = get_warm_start_recs (startup (Some model3) (Some (rev catalog3))) "u1" 2.
Proof.
  apply (warm_start_independent_of_row_order
           model3 catalog3 (rev catalog3) "u1" 2).
  - apply Permutation_rev.
  - intros a b [<- | [<- | [<- | []]]] [<- | [<- | [<- | []]]] H;
      try reflexivity; cbv in H; discriminate.
Defined.

(** ** The clients against the endpoint (app.py, streamlit_app.py) *)

Lemma raw_of_streamlit_payload u rp k :
  raw_of_body (StreamlitApp.payload u rp k)
  = Ok {| raw_user_id := Some u; raw_risk_profile := Some (Some rp);
          raw_top_k := Some k |}.
Proof. reflexivity. Qed.

Lemma serve_http_streamlit_payload G u rp k :
  serve_http G (StreamlitApp.payload u rp k)
  = match recommend G {| user_id := u; risk_profile := Some rp;
                         top_k := k |} with
    | Ok resp => Reply 200 (response_json resp)
    | Raise _ => Reply 500 Json.Null
    end.
Proof.
  unfold serve_http. rewrite raw_of_streamlit_payload.
  unfold post_recommend, parse_request. simpl.
  destruct (recommend G _) as [resp | e] eqn:H; [reflexivity | ].
  apply recommend_Raise_inv in H as (_ & [[-> _] | [-> _]]); reflexivity.
Qed.

(** X16. The count chosen in app.py has no effect: the client sends it
    under the key "k", the endpoint reads "top_k", so every request of
    app.py is served as the request of streamlit_app.py with
    [top_k = 5]. *)
Theorem app_count_has_no_effect (G : Globals) (u rp : string) (k : Z) :
  raw_of_body (App.payload u rp k)
  = Ok {| raw_user_id := Some u; raw_risk_profile := Some (Some rp);
          raw_top_k := None |} /\
  serve_http G (App.payload u rp k)
  = serve_http G (StreamlitApp.payload u rp 5).
Proof. split; reflexivity. Qed.

(** X17. The reply reaches streamlit_app.py intact: when the endpoint
    answers with a non-empty list, the client shows the label and the
    identifiers of that answer, in order; an empty list gives the warning;
    and a request the handler fails on gives "API error 500". *)
Theorem streamlit_app_shows_the_answer
        (G : Globals) (u rp : string) (k : Z) :
  StreamlitApp.on_reply (serve_http G (StreamlitApp.payload u rp k))
  = match recommend G {| user_id := u; risk_profile := Some rp;
                         top_k := k |} with
    | Ok resp =>
        match recommendations resp with
        | [] => NoRecommendations
        | _ :: _ =>
            GotRecommendations (Some (Json.Str (source resp)))
                               (map Json.Str (recommendations resp))
        end
    | Raise _ => ApiError 500
    end.
Proof.
  rewrite serve_http_streamlit_payload.
  destruct (recommend G _) as [resp | e]; [ | reflexivity].
  simpl. destruct (recommendations resp); reflexivity.
Qed.

(** X18. app.py never lists recommendations from this endpoint: it expects
    a JSON list and the endpoint answers with an object, so an answered
    request ends in the warning "No recommendations returned", and a failed
    one in "API call failed". *)
Theorem app_never_lists (G : Globals) (u rp : string) (k : Z) :
  App.on_reply (serve_http G (App.payload u rp k))
  = match recommend G {| user_id := u; risk_profile := Some rp;
                         top_k := 5 |} with
    | Ok _ => NoRecommendations
    | Raise _ => CallFailed
    end.
Proof.
  replace (serve_http G (App.payload u rp k))
    with (serve_http G (StreamlitApp.payload u rp 5)) by reflexivity.
  rewrite serve_http_streamlit_payload.
  destruct (recommend G _); reflexivity.
Qed.

(** X19. streamlit_app.py against the endpoint, when the catalog loaded with
    its ISIN and assetCategory columns: with a count in the range of the
    client's input widget, [1 <= top_k <= 50], the reply of the endpoint
    never shows as an error; the user sees either the warning for an empty
    answer, or a list of at least one and at most [top_k] identifiers. *)
Theorem streamlit_app_with_loaded_catalog
        (G : Globals) (rows : list Asset) (u rp : string) (k : Z) :
  df_assets G = AssetFrame rows ->
  1 <= k <= 50 ->
  StreamlitApp.on_reply (serve_http G (StreamlitApp.payload u rp k))
  = NoRecommendations \/
  exists src rec_ids,
    StreamlitApp.on_reply (serve_http G (StreamlitApp.payload u rp k))
    = GotRecommendations (Some (Json.Str src)) rec_ids /\
    1 <= Z.of_nat (length rec_ids) <= k.
Proof.
  intros Hdf Hk. rewrite serve_http_streamlit_payload.
  set (request := {| user_id := u; risk_profile := Some rp; top_k := k |}).
  assert (exists resp, recommend G request = Ok resp) as [resp Hresp].
  { destruct (use_ai G u) eqn:Hai.
    - destruct (recommend_warm G request Hai) as (m & _ & H).
      eexists. exact H.
    - eexists. now apply (recommend_cold G request rp rows). }
  rewrite Hresp.
  assert (Z.of_nat (length (recommendations resp)) <= k) as Hlen.
  { apply recommend_Ok_inv in Hresp
      as [(m & _ & _ & _ & ->) | (rp' & rows' & _ & _ & _ & _ & ->)].
    - apply slice_to_length. simpl. lia.
    - rewrite length_map. apply slice_to_length. simpl. lia. }
  cbn [StreamlitApp.on_reply raises_for_status response_json Json.get].
  destruct (recommendations resp) as [|id recs]; [now left | ].
  right. exists (source resp), (map Json.Str (id :: recs)).
  split; [reflexivity | ].
  rewrite length_map. cbn [length] in *. lia.
Qed.

Lemma streamlit_app_with_loaded_catalog_witness :
  StreamlitApp.on_reply
    (serve_http (startup None (Some catalog3))
                (StreamlitApp.payload "grace" "Conservative" 5))
  = NoRecommendations \/
  exists src rec_ids,
    StreamlitApp.on_reply
      (serve_http (startup None (Some catalog3))
                  (StreamlitApp.payload "grace" "Conservative" 5))
    = GotRecommendations (Some (Json.Str src)) rec_ids /\
    1 <= Z.of_nat (length rec_ids) <= 5.
Proof.
  apply (streamlit_app_with_loaded_catalog
           (startup None (Some catalog3)) catalog3 "grace" "Conservative" 5
           eq_refl).
  lia.
Defined.
